(** * Loop nodes of comfyui-loop-memory-safe: a shallow embedding of [nodes.py]

    The package is a bounded counter threaded through "loop signal"
    dictionaries (manual mode) or kept in the module-level dictionary
    [_loop_state] (auto mode), plus calls into the host's memory management.
    Python integers are unbounded, hence [Z]; the dictionaries have a fixed
    key vocabulary, hence records whose fields are [option]s ([None] = the
    key is absent); [_loop_state] is keyed by arbitrary strings, hence a
    [gmap string]. *)

From Stdlib Require Import ZArith QArith Qround Qpower Lia Lqa Bool String.
From stdpp Require Import base option gmap strings.

Local Open Scope Z_scope.

(** ** Dictionaries *)

(** [d.get(key, default)]: the value stored under the key, the default when
    the key is absent. *)
Definition dict_get {A : Type} (field : option A) (dflt : A) : A :=
  match field with
  | Some v => v
  | None => dflt
  end.

(** A loop signal: the dict built by [LoopStart], [LoopEnd] and
    [AutoLoopStart].  The counters are ints, [is_active] a bool and [loop_id]
    a str, as every producer writes them. *)
Module Signal.
Record t : Type := mk {
  current_index : option Z;
  start_index : option Z;
  max_iterations : option Z;
  is_active : option bool;
  loop_id : option string
}.
End Signal.

(** A persisted state record: the dict stored in [_loop_state] by
    [AutoLoopStart] and [AutoLoopEnd]. *)
Module State.
Record t : Type := mk {
  current_index : option Z;
  start_index : option Z;
  max_iterations : option Z
}.
End State.

(** ** Floats *)

(** A Python float is an IEEE 754 binary64 number.  A finite double is the
    rational [m * 2^e] with [|m| < 2^53] and [e >= -1074]; it is represented
    here by that rational in lowest terms, so that equality of doubles is
    equality in Rocq.  Results of magnitude [2^1024] and more (Python's
    [OverflowError]) are outside this model: the exponent is unbounded
    above. *)
Module Float64.
Definition t : Type := Q.

Definition prec : Z := 53.
Definition emin : Z := -1074.

Definition pow2 (e : Z) : Q := (2 ^ e)%Q.

(** Nearest integer, ties to even. *)
Definition rne (x : Q) : Z :=
  let f := Qfloor x in
  match (x - inject_Z f ?= 1 # 2)%Q with
  | Lt => f
  | Gt => f + 1
  | Eq => if Z.even f then f else f + 1
  end.

(** For [0 < q]: the [k] with [2^k <= q < 2^(k+1)]. *)
Definition ilog2 (q : Q) : Z :=
  let k := Z.log2 (Qnum q) - Z.log2 (Zpos (Qden q)) in
  if Qle_bool (pow2 k) q then k else k - 1.

(** Exponent of the last place of the doubles in the binade of [q];
    [emin] in the subnormal range. *)
Definition cexp (q : Q) : Z := Z.max (ilog2 q - (prec - 1)) emin.

Definition round_at (e : Z) (q : Q) : Q :=
  (inject_Z (rne (q / pow2 e)) * pow2 e)%Q.

(** Round to nearest double, ties to even. *)
Definition round (q : Q) : t :=
  Qred (match (q ?= 0)%Q with
        | Eq => 0
        | Gt => round_at (cexp q) q
        | Lt => - round_at (cexp (- q)) (- q)
        end)%Q.

Definition one : t := 1%Q.
End Float64.

(** [a / b] on ints: the double nearest to the exact quotient.  Both call
    sites guard the divisor ([max_iterations > 0]), so the
    [ZeroDivisionError] of [b = 0] has no counterpart here. *)
Definition int_truediv (a b : Z) : Float64.t :=
  Float64.round (inject_Z a / inject_Z b).

(** ** The process: module globals and the host *)

(** Requests sent to the host's memory management, in program order. *)
Inductive HostCall : Type :=
  | unload_all_models
  | soft_empty_cache
  | cleanup_models
  | cuda_synchronize
  | cuda_empty_cache
  | cuda_ipc_collect
  | gc_collect.

Record World : Type := mkWorld {
  _loop_state : gmap string State.t;    (* the global dict *)
  cuda_is_available : bool;             (* torch.cuda.is_available() *)
  host_calls : list HostCall            (* requests issued so far *)
}.

Definition with_loop_state (f : gmap string State.t -> gmap string State.t)
    (w : World) : World :=
  {| _loop_state := f (_loop_state w);
     cuda_is_available := cuda_is_available w;
     host_calls := host_calls w |}.

Definition M (A : Type) : Type := World -> A * World.

Definition ret {A : Type} (a : A) : M A := fun w => (a, w).

Definition bind {A B : Type} (m : M A) (k : A -> M B) : M B :=
  fun w => let '(a, w') := m w in k a w'.

Declare Scope py_scope.
Delimit Scope py_scope with py.
Notation "x <- m ;; k" := (bind m (fun x => k))
  (at level 100, m at next level, right associativity) : py_scope.
Notation "m ;; k" := (bind m (fun _ => k))
  (at level 100, right associativity) : py_scope.
Local Open Scope py_scope.

Definition when (c : bool) (m : M unit) : M unit :=
  if c then m else ret tt.

Definition host (c : HostCall) : M unit :=
  fun w => (tt, {| _loop_state := _loop_state w;
                   cuda_is_available := cuda_is_available w;
                   host_calls := (host_calls w ++ [c])%list |}).

Definition torch_cuda_is_available : M bool :=
  fun w => (cuda_is_available w, w).

(** ** Module-level functions *)

Definition get_loop_state (loop_id : string) : M (option State.t) :=
  fun w => (_loop_state w !! loop_id, w).

Definition set_loop_state (loop_id : string) (state : State.t) : M unit :=
  fun w => (tt, with_loop_state (fun d => <[loop_id := state]> d) w).

(** [del] of a present key; an absent key is left alone (the [elif] guard),
    which is what [delete] does on a [gmap]. *)
Definition clear_loop_state (loop_id : option string) : M unit :=
  fun w =>
    match loop_id with
    | None => (tt, with_loop_state (fun _ => ∅) w)
    | Some loop_id =>
        if decide (is_Some (_loop_state w !! loop_id))
        then (tt, with_loop_state (fun d => delete loop_id d) w)
        else (tt, w)
    end.

(** [_cleanup_memory] of [LoopEnd] and of [AutoLoopEnd] (same body).  The
    availability test issues no request, so reading it before the [and] is
    the same as Python's short circuit. *)
Definition _cleanup_memory (clear_cuda_cache run_gc unload_models : bool) : M unit :=
  when unload_models (host unload_all_models ;; host soft_empty_cache) ;;
  available <- torch_cuda_is_available ;;
  when (clear_cuda_cache && available) (host cuda_empty_cache ;; host cuda_ipc_collect) ;;
  when run_gc (host gc_collect).

(** ** Manual mode *)

Module LoopStart.
Definition execute (start_index max_iterations : Z) (loop_signal : option Signal.t)
    : Z * Z * Z * Signal.t :=
  let current_index :=
    match loop_signal with
    | None => start_index
    | Some loop_signal => dict_get (Signal.current_index loop_signal) start_index
    end in
  let signal :=
    {| Signal.current_index := Some current_index;
       Signal.start_index := Some start_index;
       Signal.max_iterations := Some max_iterations;
       Signal.is_active := Some (current_index <? start_index + max_iterations);
       Signal.loop_id := None |} in
  (current_index, start_index, max_iterations, signal).

(* RETURN_NAMES *)
Definition current_index (r : Z * Z * Z * Signal.t) : Z := r.1.1.1.
Definition loop_signal (r : Z * Z * Z * Signal.t) : Signal.t := r.2.
End LoopStart.

Module LoopEnd.
Definition execute {A : Type} (loop_signal : Signal.t) (passthrough : option A)
    (clear_cuda_cache run_gc unload_models : bool)
    : M (Signal.t * option A * bool) :=
  let current_index := dict_get (Signal.current_index loop_signal) 0 in
  let start_index := dict_get (Signal.start_index loop_signal) 0 in
  let max_iterations := dict_get (Signal.max_iterations loop_signal) 1 in
  let next_index := current_index + 1 in
  let end_index := start_index + max_iterations in
  let continue_loop := next_index <? end_index in
  _cleanup_memory clear_cuda_cache run_gc unload_models ;;
  let new_signal :=
    {| Signal.current_index := Some next_index;
       Signal.start_index := Some start_index;
       Signal.max_iterations := Some max_iterations;
       Signal.is_active := Some continue_loop;
       Signal.loop_id := None |} in
  ret (new_signal, passthrough, continue_loop).

(* RETURN_NAMES *)
Definition loop_signal {A : Type} (r : Signal.t * option A * bool) : Signal.t := r.1.1.
Definition passthrough {A : Type} (r : Signal.t * option A * bool) : option A := r.1.2.
Definition continue_loop {A : Type} (r : Signal.t * option A * bool) : bool := r.2.
End LoopEnd.

Module LoopCondition.
Definition execute (loop_signal : Signal.t) : bool * Z * Z :=
  let current_index := dict_get (Signal.current_index loop_signal) 0 in
  let start_index := dict_get (Signal.start_index loop_signal) 0 in
  let max_iterations := dict_get (Signal.max_iterations loop_signal) 1 in
  let end_index := start_index + max_iterations in
  let should_continue := current_index <? end_index in
  let remaining := Z.max 0 (end_index - current_index - 1) in
  (should_continue, current_index, remaining).

(* RETURN_NAMES *)
Definition should_continue (r : bool * Z * Z) : bool := r.1.1.
Definition current_index (r : bool * Z * Z) : Z := r.1.2.
Definition remaining (r : bool * Z * Z) : Z := r.2.
End LoopCondition.

Module LoopIndex.
Definition execute (loop_signal : Signal.t) : Z * Z * Z * Z * Float64.t :=
  let current_index := dict_get (Signal.current_index loop_signal) 0 in
  let start_index := dict_get (Signal.start_index loop_signal) 0 in
  let max_iterations := dict_get (Signal.max_iterations loop_signal) 1 in
  let iteration := current_index - start_index in
  let remaining := Z.max 0 (max_iterations - iteration - 1) in
  let progress :=
    if max_iterations >? 0 then int_truediv (iteration + 1) max_iterations
    else Float64.one in
  (current_index, iteration, max_iterations, remaining, progress).

(* RETURN_NAMES *)
Definition current_index (r : Z * Z * Z * Z * Float64.t) : Z := r.1.1.1.1.
Definition iteration (r : Z * Z * Z * Z * Float64.t) : Z := r.1.1.1.2.
Definition total_iterations (r : Z * Z * Z * Z * Float64.t) : Z := r.1.1.2.
Definition remaining (r : Z * Z * Z * Z * Float64.t) : Z := r.1.2.
Definition progress (r : Z * Z * Z * Z * Float64.t) : Float64.t := r.2.
End LoopIndex.

Module MemoryCleanup.
Definition execute {A : Type} (trigger : A)
    (clear_cuda_cache run_gc unload_models aggressive_cleanup : bool) : M A :=
  when unload_models (host unload_all_models ;; host soft_empty_cache) ;;
  when aggressive_cleanup
    (host cleanup_models ;;
     available <- torch_cuda_is_available ;;
     when available (host cuda_synchronize)) ;;
  available <- torch_cuda_is_available ;;
  when (clear_cuda_cache && available) (host cuda_empty_cache ;; host cuda_ipc_collect) ;;
  when run_gc
    (host gc_collect ;;
     when aggressive_cleanup (host gc_collect ;; host gc_collect)) ;;
  ret trigger.
End MemoryCleanup.

Module IntIterator.
Definition execute (start end_ step current_iteration : Z) : Z * Z * bool :=
  let value := start + current_iteration * step in
  let has_more :=
    if step >? 0 then (value + step <=? end_) else (value + step >=? end_) in
  (value, current_iteration, has_more).

(* RETURN_NAMES *)
Definition value (r : Z * Z * bool) : Z := r.1.1.
Definition iteration (r : Z * Z * bool) : Z := r.1.2.
Definition has_more (r : Z * Z * bool) : bool := r.2.
End IntIterator.

(** ** Auto mode *)

(** The change token of [IS_CHANGED]: [float("nan")], which never compares
    equal to the previous token, or the cursor. *)
Inductive ChangeToken : Type :=
  | nan
  | token (current_index : Z).

Module AutoLoopStart.
Definition IS_CHANGED (loop_id : string) (start_index max_iterations : Z)
    (reset : bool) : M ChangeToken :=
  state <- get_loop_state loop_id ;;
  match state, reset with
  | Some state, false => ret (token (dict_get (State.current_index state) 0))
  | _, _ => ret nan
  end.

Definition execute (loop_id : string) (start_index max_iterations : Z) (reset : bool)
    : M (Z * Z * Z * Float64.t * bool * Signal.t) :=
  state <- get_loop_state loop_id ;;
  current_index <-
    match state, reset with
    | Some state, false =>
        ret (dict_get (State.current_index state) start_index)
    | _, _ =>
        let current_index := start_index in
        let state :=
          {| State.current_index := Some current_index;
             State.start_index := Some start_index;
             State.max_iterations := Some max_iterations |} in
        set_loop_state loop_id state ;;
        ret current_index
    end ;;
  let iteration := current_index - start_index in
  let end_index := start_index + max_iterations in
  let remaining := Z.max 0 (end_index - current_index - 1) in
  let progress :=
    if max_iterations >? 0 then int_truediv (iteration + 1) max_iterations
    else Float64.one in
  let is_last := current_index >=? end_index - 1 in
  let signal :=
    {| Signal.loop_id := Some loop_id;
       Signal.current_index := Some current_index;
       Signal.start_index := Some start_index;
       Signal.max_iterations := Some max_iterations;
       Signal.is_active := Some (current_index <? end_index) |} in
  ret (current_index, iteration, remaining, progress, is_last, signal).

(* RETURN_NAMES *)
Definition current_index (r : Z * Z * Z * Float64.t * bool * Signal.t) : Z := r.1.1.1.1.1.
Definition iteration (r : Z * Z * Z * Float64.t * bool * Signal.t) : Z := r.1.1.1.1.2.
Definition remaining (r : Z * Z * Z * Float64.t * bool * Signal.t) : Z := r.1.1.1.2.
Definition progress (r : Z * Z * Z * Float64.t * bool * Signal.t) : Float64.t := r.1.1.2.
Definition is_last (r : Z * Z * Z * Float64.t * bool * Signal.t) : bool := r.1.2.
Definition loop_signal (r : Z * Z * Z * Float64.t * bool * Signal.t) : Signal.t := r.2.
End AutoLoopStart.

Module AutoLoopEnd.
Definition execute {A : Type} (loop_signal : Signal.t) (passthrough : option A)
    (clear_cuda_cache run_gc unload_models : bool)
    : M (option A * bool * Z) :=
  let loop_id := dict_get (Signal.loop_id loop_signal) "default"%string in
  let current_index := dict_get (Signal.current_index loop_signal) 0 in
  let start_index := dict_get (Signal.start_index loop_signal) 0 in
  let max_iterations := dict_get (Signal.max_iterations loop_signal) 1 in
  let next_index := current_index + 1 in
  let end_index := start_index + max_iterations in
  let should_continue := next_index <? end_index in
  _cleanup_memory clear_cuda_cache run_gc unload_models ;;
  let state :=
    {| State.current_index := Some next_index;
       State.start_index := Some start_index;
       State.max_iterations := Some max_iterations |} in
  set_loop_state loop_id state ;;
  when (negb should_continue) (clear_loop_state (Some loop_id)) ;;
  ret (passthrough, should_continue, next_index).

(* RETURN_NAMES *)
Definition passthrough {A : Type} (r : option A * bool * Z) : option A := r.1.1.
Definition should_continue {A : Type} (r : option A * bool * Z) : bool := r.1.2.
Definition next_index {A : Type} (r : option A * bool * Z) : Z := r.2.
End AutoLoopEnd.

Module LoopBreak.
Definition execute {A : Type} (loop_signal : Signal.t) (break_condition : bool)
    (passthrough : option A) : M (option A * bool) :=
  when break_condition
    (let loop_id := dict_get (Signal.loop_id loop_signal) "default"%string in
     clear_loop_state (Some loop_id)) ;;
  ret (passthrough, break_condition).

(* RETURN_NAMES *)
Definition passthrough {A : Type} (r : option A * bool) : option A := r.1.
Definition did_break {A : Type} (r : option A * bool) : bool := r.2.
End LoopBreak.

Module LoopReset.
Definition execute {A : Type} (loop_id : string) (trigger : A) : M A :=
  clear_loop_state (Some loop_id) ;;
  ret trigger.
End LoopReset.

(** ** Workflows used in the statements *)

(** The bound every node recomputes from the signal it reads. *)
Definition end_index (loop_signal : Signal.t) : Z :=
  dict_get (Signal.start_index loop_signal) 0
  + dict_get (Signal.max_iterations loop_signal) 1.

(** The signal with each absent counter written out with the value the
    reading nodes give it; the counters that are present are kept. *)
Definition with_defaults (loop_signal : Signal.t) : Signal.t :=
  {| Signal.current_index := Some (dict_get (Signal.current_index loop_signal) 0);
     Signal.start_index := Some (dict_get (Signal.start_index loop_signal) 0);
     Signal.max_iterations := Some (dict_get (Signal.max_iterations loop_signal) 1);
     Signal.is_active := Signal.is_active loop_signal;
     Signal.loop_id := Signal.loop_id loop_signal |}.

(** Manual mode, [n] advances: each [LoopEnd] is fed the signal returned by
    the one before. *)
Fixpoint advance (n : nat) (clear_cuda_cache run_gc unload_models : bool)
    (loop_signal : Signal.t) : M Signal.t :=
  match n with
  | O => ret loop_signal
  | S n' =>
      r <- LoopEnd.execute loop_signal (@None unit) clear_cuda_cache run_gc unload_models ;;
      advance n' clear_cuda_cache run_gc unload_models (LoopEnd.loop_signal r)
  end.

(** Auto mode, one evaluation of the graph: [AutoLoopStart] produces the
    signal, [AutoLoopEnd] consumes it. *)
Definition auto_evaluation (loop_id : string) (start_index max_iterations : Z)
    (reset clear_cuda_cache run_gc unload_models : bool)
    : M ((Z * Z * Z * Float64.t * bool * Signal.t) * (option unit * bool * Z)) :=
  s <- AutoLoopStart.execute loop_id start_index max_iterations reset ;;
  e <- AutoLoopEnd.execute (AutoLoopStart.loop_signal s) None
         clear_cuda_cache run_gc unload_models ;;
  ret (s, e).

(** Auto mode, [n] evaluations re-queued by the host with the same inputs;
    each contributes the cursor its signal carried, and the [next_index] and
    [should_continue] outputs of its [AutoLoopEnd]. *)
Fixpoint auto_queue (n : nat) (loop_id : string) (start_index max_iterations : Z)
    (clear_cuda_cache run_gc unload_models : bool) : M (list (Z * Z * bool)) :=
  match n with
  | O => ret []
  | S n' =>
      r <- auto_evaluation loop_id start_index max_iterations false
             clear_cuda_cache run_gc unload_models ;;
      rest <- auto_queue n' loop_id start_index max_iterations
                clear_cuda_cache run_gc unload_models ;;
      ret ((AutoLoopStart.current_index r.1,
            AutoLoopEnd.next_index r.2,
            AutoLoopEnd.should_continue r.2) :: rest)
  end.

(** Worlds and signals used as concrete inputs. *)
Definition fresh_world : World :=
  {| _loop_state := ∅; cuda_is_available := false; host_calls := [] |}.

Definition auto_signal (loop_id : string) (current_index start_index max_iterations : Z)
    : Signal.t :=
  {| Signal.current_index := Some current_index;
     Signal.start_index := Some start_index;
     Signal.max_iterations := Some max_iterations;
     Signal.is_active := Some (current_index <? start_index + max_iterations);
     Signal.loop_id := Some loop_id |}.

(** A manual-mode signal as [LoopStart] and [LoopEnd] build it. *)
Definition manual_signal (current_index start_index max_iterations : Z) : Signal.t :=
  {| Signal.current_index := Some current_index;
     Signal.start_index := Some start_index;
     Signal.max_iterations := Some max_iterations;
     Signal.is_active := Some (current_index <? start_index + max_iterations);
     Signal.loop_id := None |}.

(** The world after one queued evaluation of the loop ["loop_1"] over
    [0 .. 3): its slot holds the cursor 1. *)
Definition advanced_world : World :=
  (auto_evaluation "loop_1" 0 3 false true true false fresh_world).2.

(** The world after an [AutoLoopStart] whose loop id is the string
    ["default"]. *)
Definition default_slot_world : World :=
  (AutoLoopStart.execute "default" 0 3 false fresh_world).2.

(** ** Input schemas *)

(** An ["INT"] entry of [INPUT_TYPES]: the host offers [default] and keeps
    the value within [min .. max]. *)
Record IntInput : Type := mkIntInput {
  int_default : Z;
  int_min : Z;
  int_max : Z;
  int_step : Z
}.

Definition admits (i : IntInput) (v : Z) : Prop := int_min i <= v <= int_max i.

Module INPUT_TYPES.
Definition LoopStart_start_index : IntInput := mkIntInput 0 0 10000 1.
Definition LoopStart_max_iterations : IntInput := mkIntInput 1 1 10000 1.
Definition IntIterator_start : IntInput := mkIntInput 0 (-10000) 10000 1.
Definition IntIterator_end : IntInput := mkIntInput 10 (-10000) 10000 1.
Definition IntIterator_step : IntInput := mkIntInput 1 1 1000 1.
Definition IntIterator_current_iteration : IntInput := mkIntInput 0 0 10000 1.
Definition AutoLoopStart_start_index : IntInput := mkIntInput 0 0 10000 1.
Definition AutoLoopStart_max_iterations : IntInput := mkIntInput 10 1 10000 1.
End INPUT_TYPES.

(** ** Vocabulary of the further properties *)

(** Equality of host requests is decidable. *)
Definition HostCall_eq_dec (x y : HostCall) : {x = y} + {x <> y}.
Proof. decide equality. Defined.

(** The requests [_cleanup_memory] sends, as a list. *)
Definition cleanup_requests (clear_cuda_cache run_gc unload_models available : bool)
    : list HostCall :=
  ((if unload_models then [unload_all_models; soft_empty_cache] else [])
   ++ (if clear_cuda_cache && available then [cuda_empty_cache; cuda_ipc_collect] else [])
   ++ (if run_gc then [gc_collect] else []))%list.

(** The requests [MemoryCleanup.execute] sends, as a list. *)
Definition memory_cleanup_requests
    (clear_cuda_cache run_gc unload_models aggressive_cleanup available : bool)
    : list HostCall :=
  ((if unload_models then [unload_all_models; soft_empty_cache] else [])
   ++ (if aggressive_cleanup
       then cleanup_models :: (if available then [cuda_synchronize] else [])
       else [])
   ++ (if clear_cuda_cache && available then [cuda_empty_cache; cuda_ipc_collect] else [])
   ++ (if run_gc
       then gc_collect :: (if aggressive_cleanup then [gc_collect; gc_collect] else [])
       else []))%list.

Definition log (calls : list HostCall) (w : World) : World :=
  {| _loop_state := _loop_state w;
     cuda_is_available := cuda_is_available w;
     host_calls := (host_calls w ++ calls)%list |}.

(** A signal as the nodes build it: the three counters are present and
    [is_active] says whether the cursor is below the end. *)
Definition well_formed (sig : Signal.t) : bool :=
  match Signal.current_index sig, Signal.start_index sig,
        Signal.max_iterations sig, Signal.is_active sig with
  | Some cur, Some s, Some m, Some a => Bool.eqb a (cur <? s + m)
  | _, _, _, _ => false
  end.

(** The cursor [AutoLoopStart] resumes from without reset. *)
Definition resume_cursor (loop_id : string) (start_index : Z) (w : World) : Z :=
  match _loop_state w !! loop_id with
  | Some state => dict_get (State.current_index state) start_index
  | None => start_index
  end.

(** What [n] queued evaluations report when they start at [cursor] and the
    loop ends at [end_]. *)
Fixpoint expected_run (n : nat) (cursor end_ : Z) : list (Z * Z * bool) :=
  match n with
  | O => []
  | S n' => (cursor, cursor + 1, cursor + 1 <? end_) :: expected_run n' (cursor + 1) end_
  end.

(** * Facts *)

(** ** Rounding to binary64 is monotone *)

Module Float64Facts.
Import Float64.

Lemma rne_bounds (x : Q) : Qfloor x <= rne x <= Qfloor x + 1.
Proof.
  unfold rne. destruct (_ ?= _)%Q; [destruct (Z.even _) | |]; lia.
Qed.

Lemma rne_mono (x y : Q) : (x <= y)%Q -> rne x <= rne y.
Proof.
  intros Hxy.
  pose proof (Qfloor_resp_le x y Hxy) as Hf.
  pose proof (rne_bounds x) as Hx. pose proof (rne_bounds y) as Hy.
  destruct (Z.eq_dec (Qfloor x) (Qfloor y)) as [E | NE]; [| lia].
  clear Hx Hy Hf. unfold rne. rewrite <- E.
  destruct (Qcompare_spec (x - inject_Z (Qfloor x)) (1 # 2)) as [Hx | Hx | Hx];
    destruct (Qcompare_spec (y - inject_Z (Qfloor x)) (1 # 2)) as [Hy | Hy | Hy];
    try destruct (Z.even (Qfloor x)); try lia; exfalso; lra.
Qed.

Lemma rne_Z (k : Z) : rne (inject_Z k) = k.
Proof.
  unfold rne. rewrite Qfloor_Z.
  destruct (Qcompare_spec (inject_Z k - inject_Z k) (1 # 2)) as [H | H | H];
    [exfalso; lra | reflexivity | exfalso; lra].
Qed.

Lemma rne_comp (x y : Q) : (x == y)%Q -> rne x = rne y.
Proof.
  intros E. apply Z.le_antisymm; apply rne_mono; rewrite E; apply Qle_refl.
Qed.

Lemma pow2_pos (e : Z) : (0 < pow2 e)%Q.
Proof. apply Qpower_0_lt. reflexivity. Qed.

Lemma pow2_add (a b : Z) : (pow2 (a + b) == pow2 a * pow2 b)%Q.
Proof. apply Qpower_plus. discriminate. Qed.

Lemma pow2_le (a b : Z) : a <= b -> (pow2 a <= pow2 b)%Q.
Proof. intros H. apply Qpower_le_compat_l; [exact H | discriminate]. Qed.

Lemma pow2_Z (n : Z) : 0 <= n -> (pow2 n == inject_Z (2 ^ n))%Q.
Proof. intros H. unfold pow2. symmetry. apply (Zpower_Qpower 2 n H). Qed.

Lemma pow2_succ (k : Z) : (pow2 (k + 1) == 2 * pow2 k)%Q.
Proof. rewrite pow2_add. change (pow2 1) with 2%Q. ring. Qed.

Lemma log2_bracket (n : Z) :
  0 < n -> (pow2 (Z.log2 n) <= inject_Z n /\ inject_Z n < pow2 (Z.log2 n + 1))%Q.
Proof.
  intros Hn. destruct (Z.log2_spec n Hn) as [Hlo Hhi].
  pose proof (Z.log2_nonneg n) as H0.
  rewrite !pow2_Z by lia. split.
  - rewrite <- Zle_Qle. exact Hlo.
  - rewrite <- Zlt_Qlt. replace (Z.log2 n + 1) with (Z.succ (Z.log2 n)) by lia. exact Hhi.
Qed.

(** [ilog2] brackets a positive rational between two powers of two. *)
Lemma ilog2_spec (q : Q) :
  (0 < q)%Q -> (pow2 (ilog2 q) <= q /\ q < pow2 (ilog2 q + 1))%Q.
Proof.
  intros Hq. unfold ilog2.
  destruct q as [n d]. cbn [Qnum Qden].
  assert (Hn : 0 < n) by (unfold Qlt in Hq; cbn in Hq; lia).
  set (ln := Z.log2 n). set (ld := Z.log2 (Zpos d)). set (k := ln - ld).
  destruct (log2_bracket n Hn) as [HnL HnU]. fold ln in HnL, HnU.
  destruct (log2_bracket (Zpos d) eq_refl) as [HdL HdU]. fold ld in HdL, HdU.
  rewrite pow2_succ in HnU, HdU.
  assert (HA : (pow2 ln == pow2 k * pow2 ld)%Q).
  { rewrite <- pow2_add. unfold k. replace (ln - ld + ld) with ln by lia. reflexivity. }
  pose proof (pow2_pos k) as HP. pose proof (pow2_pos ld) as HB.
  assert (HD : (0 < inject_Z (Zpos d))%Q) by reflexivity.
  assert (Eq : (n # d == inject_Z n / inject_Z (Zpos d))%Q) by apply Qmake_Qdiv.
  assert (Hup : (n # d < 2 * pow2 k)%Q).
  { rewrite Eq. apply Qlt_shift_div_r; [exact HD |]. rewrite HA in HnU. nra. }
  assert (Hlo : (pow2 k <= 2 * (n # d))%Q).
  { rewrite Eq.
    setoid_replace (2 * (inject_Z n / inject_Z (Zpos d)))%Q
      with ((2 * inject_Z n) / inject_Z (Zpos d))%Q using relation Qeq by (field; lra).
    apply Qle_shift_div_l; [exact HD |]. rewrite HA in HnL. nra. }
  destruct (Qle_bool (pow2 k) (n # d)) eqn:Hb.
  - apply Qle_bool_iff in Hb. rewrite pow2_succ. split; [exact Hb | exact Hup].
  - assert (Hlt : (n # d < pow2 k)%Q).
    { apply Qnot_le_lt. intros Hle. apply Qle_bool_iff in Hle. congruence. }
    replace (k - 1 + 1) with k by lia. split; [| exact Hlt].
    assert (E2 : (pow2 k == 2 * pow2 (k - 1))%Q).
    { rewrite <- pow2_succ. replace (k - 1 + 1) with k by lia. reflexivity. }
    lra.
Qed.

Lemma ilog2_mono (x y : Q) : (0 < x)%Q -> (x <= y)%Q -> ilog2 x <= ilog2 y.
Proof.
  intros Hx Hxy.
  destruct (ilog2_spec x Hx) as [HxL _].
  destruct (ilog2_spec y) as [_ HyU]; [lra |].
  destruct (Z_le_gt_dec (ilog2 x) (ilog2 y)) as [H | H]; [exact H | exfalso].
  assert (Hp : (pow2 (ilog2 y + 1) <= pow2 (ilog2 x))%Q) by (apply pow2_le; lia).
  lra.
Qed.

Lemma round_at_mono (e : Z) (x y : Q) : (x <= y)%Q -> (round_at e x <= round_at e y)%Q.
Proof.
  intros Hxy. unfold round_at. pose proof (pow2_pos e) as Hp.
  apply Qmult_le_compat_r; [| lra].
  rewrite <- Zle_Qle. apply rne_mono.
  apply Qmult_le_compat_r; [exact Hxy |].
  apply Qlt_le_weak, Qinv_lt_0_compat, Hp.
Qed.

(** Multiples of [2^e] are fixed by rounding at exponent [e]. *)
Lemma round_at_grid (e k : Z) :
  (round_at e (inject_Z k * pow2 e) == inject_Z k * pow2 e)%Q.
Proof.
  unfold round_at. pose proof (pow2_pos e) as Hp.
  rewrite (rne_comp _ (inject_Z k)); [rewrite rne_Z; reflexivity |].
  field. lra.
Qed.

Lemma round_at_nonneg (e : Z) (x : Q) : (0 <= x)%Q -> (0 <= round_at e x)%Q.
Proof.
  intros Hx. apply Qle_trans with (round_at e (inject_Z 0 * pow2 e)).
  - rewrite round_at_grid. change (inject_Z 0) with 0%Q. lra.
  - apply round_at_mono. change (inject_Z 0) with 0%Q. lra.
Qed.

(** A power of two lies on the grid of every exponent below it. *)
Lemma pow2_on_grid (l e : Z) : e <= l -> (pow2 l == inject_Z (2 ^ (l - e)) * pow2 e)%Q.
Proof.
  intros H. rewrite <- pow2_Z by lia. rewrite <- pow2_add.
  replace (l - e + e) with l by lia. reflexivity.
Qed.

(** Across two binades the power of two between them separates the
    results. *)
Lemma round_pos_mono (x y : Q) :
  (0 < x)%Q -> (x <= y)%Q -> (round_at (cexp x) x <= round_at (cexp y) y)%Q.
Proof.
  intros Hx Hxy.
  assert (Hy : (0 < y)%Q) by lra.
  pose proof (ilog2_mono x y Hx Hxy) as Hl.
  destruct (ilog2_spec x Hx) as [_ HxU].
  destruct (ilog2_spec y Hy) as [HyL _].
  destruct (Z.eq_dec (cexp x) (cexp y)) as [E | NE].
  { rewrite E. apply round_at_mono, Hxy. }
  unfold cexp, prec, emin in *.
  assert (Hlt : ilog2 x + 1 <= ilog2 y) by lia.
  assert (HB : (pow2 (ilog2 x + 1) <= pow2 (ilog2 y))%Q) by (apply pow2_le; lia).
  set (ex := Z.max (ilog2 x - (53 - 1)) (-1074)) in *.
  set (ey := Z.max (ilog2 y - (53 - 1)) (-1074)) in *.
  apply Qle_trans with (pow2 (ilog2 y)).
  - rewrite (pow2_on_grid (ilog2 y) ex) by lia.
    rewrite <- round_at_grid. apply round_at_mono.
    rewrite <- pow2_on_grid by lia. lra.
  - rewrite (pow2_on_grid (ilog2 y) ey) at 1 by lia.
    rewrite <- round_at_grid. apply round_at_mono.
    rewrite <- pow2_on_grid by lia. exact HyL.
Qed.

Lemma round_mono (x y : Q) : (x <= y)%Q -> (round x <= round y)%Q.
Proof.
  intros Hxy. unfold round. rewrite !Qred_correct.
  destruct (Qcompare_spec x 0) as [Hx | Hx | Hx];
    destruct (Qcompare_spec y 0) as [Hy | Hy | Hy]; try (exfalso; lra).
  - lra.
  - apply round_at_nonneg. lra.
  - assert (H : (0 <= round_at (cexp (- x)) (- x))%Q) by (apply round_at_nonneg; lra). lra.
  - assert (H : (round_at (cexp (- y)) (- y) <= round_at (cexp (- x)) (- x))%Q)
      by (apply round_pos_mono; lra).
    lra.
  - assert (H : (0 <= round_at (cexp (- x)) (- x))%Q) by (apply round_at_nonneg; lra).
    assert (H' : (0 <= round_at (cexp y) y)%Q) by (apply round_at_nonneg; lra).
    lra.
  - apply round_pos_mono; assumption.
Qed.

(** Equal rationals round to the same double. *)
Lemma round_comp (x y : Q) : (x == y)%Q -> round x = round y.
Proof.
  intros E.
  assert (H : (round x == round y)%Q).
  { apply Qle_antisym; apply round_mono; rewrite E; apply Qle_refl. }
  unfold round in *. rewrite !Qred_correct in H. apply Qred_complete, H.
Qed.

Lemma round_one : round 1 = one.
Proof. reflexivity. Qed.
End Float64Facts.

(** The doubles of a few quotients, as [float.as_integer_ratio] prints
    them. *)
Example int_truediv_1_3 : int_truediv 1 3 = (6004799503160661 # 18014398509481984)%Q.
Proof. vm_compute. reflexivity. Qed.

Example int_truediv_1_10 : int_truediv 1 10 = (3602879701896397 # 36028797018963968)%Q.
Proof. vm_compute. reflexivity. Qed.

Example int_truediv_2_3 : int_truediv 2 3 = (6004799503160661 # 9007199254740992)%Q.
Proof. vm_compute. reflexivity. Qed.

Example int_truediv_1_10000 :
  int_truediv 1 10000 = (7378697629483821 # 73786976294838206464)%Q.
Proof. vm_compute. reflexivity. Qed.

(** Below the normal range the spacing stays [2^-1074], and a tie goes to
    the even neighbour. *)
Example round_subnormal :
  Float64.round (3 # 2 ^ 1075) = Float64.pow2 (-1073)
  /\ Float64.round (1 # 2 ^ 1075) = 0%Q.
Proof. vm_compute. split; reflexivity. Qed.

(** Division by a positive int is monotone in the numerator. *)
Lemma int_truediv_mono (a a' b : Z) :
  0 < b -> a <= a' -> (int_truediv a b <= int_truediv a' b)%Q.
Proof.
  intros Hb Ha. unfold int_truediv. apply Float64Facts.round_mono.
  apply Qmult_le_compat_r.
  - rewrite <- Zle_Qle. exact Ha.
  - apply Qlt_le_weak, Qinv_lt_0_compat. change 0%Q with (inject_Z 0).
    rewrite <- Zlt_Qlt. exact Hb.
Qed.

Lemma int_truediv_diag (b : Z) : 0 < b -> int_truediv b b = Float64.one.
Proof.
  intros Hb. unfold int_truediv. rewrite <- Float64Facts.round_one.
  apply Float64Facts.round_comp. field.
  intros E. unfold Qeq in E. cbn in E. lia.
Qed.

(** ** Running the nodes *)

Lemma bind_run {A B : Type} (m : M A) (k : A -> M B) (w : World) :
  bind m k w = k (m w).1 (m w).2.
Proof. unfold bind. destruct (m w); reflexivity. Qed.

(** The cleanup only appends host requests. *)
Lemma cleanup_memory_frame (c g u : bool) (w : World) :
  _loop_state (_cleanup_memory c g u w).2 = _loop_state w
  /\ cuda_is_available (_cleanup_memory c g u w).2 = cuda_is_available w.
Proof.
  destruct w as [d av calls]. destruct c, g, u, av; split; reflexivity.
Qed.

Lemma clear_loop_state_delete (loop_id : string) (w : World) :
  _loop_state (clear_loop_state (Some loop_id) w).2 = delete loop_id (_loop_state w)
  /\ cuda_is_available (clear_loop_state (Some loop_id) w).2 = cuda_is_available w
  /\ host_calls (clear_loop_state (Some loop_id) w).2 = host_calls w.
Proof.
  unfold clear_loop_state. destruct (decide _) as [Hin | Hout]; cbn.
  - auto.
  - rewrite delete_id; [auto |]. apply eq_None_not_Some, Hout.
Qed.

Ltac run := repeat (rewrite bind_run; cbn [fst snd ret]).

Lemma LoopEnd_run {A : Type} (sig : Signal.t) (pt : option A) (c g u : bool) (w : World) :
  LoopEnd.execute sig pt c g u w =
    (({| Signal.current_index := Some (dict_get (Signal.current_index sig) 0 + 1);
         Signal.start_index := Some (dict_get (Signal.start_index sig) 0);
         Signal.max_iterations := Some (dict_get (Signal.max_iterations sig) 1);
         Signal.is_active :=
           Some (dict_get (Signal.current_index sig) 0 + 1 <? end_index sig);
         Signal.loop_id := None |},
      pt,
      dict_get (Signal.current_index sig) 0 + 1 <? end_index sig),
     (_cleanup_memory c g u w).2).
Proof. unfold LoopEnd.execute. run. reflexivity. Qed.

Lemma AutoLoopEnd_run {A : Type} (sig : Signal.t) (pt : option A) (c g u : bool) (w : World) :
  let loop_id := dict_get (Signal.loop_id sig) "default"%string in
  let next_index := dict_get (Signal.current_index sig) 0 + 1 in
  let should_continue := next_index <? end_index sig in
  let state :=
    {| State.current_index := Some next_index;
       State.start_index := Some (dict_get (Signal.start_index sig) 0);
       State.max_iterations := Some (dict_get (Signal.max_iterations sig) 1) |} in
  (AutoLoopEnd.execute sig pt c g u w).1 = (pt, should_continue, next_index)
  /\ _loop_state (AutoLoopEnd.execute sig pt c g u w).2 =
       (if should_continue then <[loop_id := state]> (_loop_state w)
        else delete loop_id (_loop_state w)).
Proof.
  intros loop_id next_index should_continue state.
  unfold AutoLoopEnd.execute. run.
  fold loop_id next_index. unfold end_index in should_continue. fold should_continue.
  fold state.
  destruct (cleanup_memory_frame c g u w) as [Hd _].
  destruct should_continue; cbn [negb when ret fst snd]; split; try reflexivity.
  - cbn. rewrite Hd. reflexivity.
  - destruct (clear_loop_state_delete loop_id
                (set_loop_state loop_id state (_cleanup_memory c g u w).2).2) as [E _].
    rewrite E. cbn. rewrite Hd. apply delete_insert_eq.
Qed.

Lemma AutoLoopStart_run (loop_id : string) (s m : Z) (reset : bool) (w : World) :
  let resumed :=
    match _loop_state w !! loop_id, reset with
    | Some st, false => Some st
    | _, _ => None
    end in
  let current_index :=
    match resumed with
    | Some st => dict_get (State.current_index st) s
    | None => s
    end in
  AutoLoopStart.current_index (AutoLoopStart.execute loop_id s m reset w).1 = current_index
  /\ AutoLoopStart.loop_signal (AutoLoopStart.execute loop_id s m reset w).1 =
       {| Signal.current_index := Some current_index;
          Signal.start_index := Some s;
          Signal.max_iterations := Some m;
          Signal.is_active := Some (current_index <? s + m);
          Signal.loop_id := Some loop_id |}
  /\ (AutoLoopStart.execute loop_id s m reset w).2 =
       match resumed with
       | Some _ => w
       | None =>
           with_loop_state
             (fun d => <[loop_id := {| State.current_index := Some s;
                                       State.start_index := Some s;
                                       State.max_iterations := Some m |}]> d) w
       end.
Proof.
  unfold AutoLoopStart.execute, get_loop_state. run.
  destruct (_loop_state w !! loop_id) as [st |], reset; cbn; auto.
Qed.

(** * Properties of the specification *)

(** C1. Auto-mode persistence round trip.  When [AutoLoopEnd] leaves a
    record in the slot of the signal's loop id (it continues), the next
    [AutoLoopStart] on that id without reset returns the persisted
    [current_index] and leaves the world as it is, so a second Start agrees;
    in general Start without reset resumes from whatever record the slot
    holds.  On an unseen id, or with [reset], Start returns [start_index] and
    stores the fresh record [{current_index = start_index, start_index,
    max_iterations}]. *)
Theorem auto_persistence_round_trip {A : Type}
    (w : World) (loop_id : string) (start_index max_iterations : Z) :
  (forall (sig : Signal.t) (pt : option A) (c g u : bool),
      dict_get (Signal.loop_id sig) "default"%string = loop_id ->
      let e := AutoLoopEnd.execute sig pt c g u w in
      AutoLoopEnd.should_continue e.1 = true ->
      let s := AutoLoopStart.execute loop_id start_index max_iterations false e.2 in
      _loop_state e.2 !! loop_id =
        Some {| State.current_index := Some (AutoLoopEnd.next_index e.1);
                State.start_index := Some (dict_get (Signal.start_index sig) 0);
                State.max_iterations := Some (dict_get (Signal.max_iterations sig) 1) |}
      /\ AutoLoopStart.current_index s.1 = AutoLoopEnd.next_index e.1
      /\ s.2 = e.2)
  /\ (forall st : State.t,
        _loop_state w !! loop_id = Some st ->
        let s := AutoLoopStart.execute loop_id start_index max_iterations false w in
        AutoLoopStart.current_index s.1 = dict_get (State.current_index st) start_index
        /\ s.2 = w)
  /\ (forall reset : bool,
        _loop_state w !! loop_id = None \/ reset = true ->
        let s := AutoLoopStart.execute loop_id start_index max_iterations reset w in
        AutoLoopStart.current_index s.1 = start_index
        /\ _loop_state s.2 =
             <[loop_id := {| State.current_index := Some start_index;
                             State.start_index := Some start_index;
                             State.max_iterations := Some max_iterations |}]>
               (_loop_state w)
        /\ cuda_is_available s.2 = cuda_is_available w
        /\ host_calls s.2 = host_calls w).
Proof.
  split; [| split].
  - intros sig pt c g u Hid e Hcont s.
    destruct (AutoLoopEnd_run sig pt c g u w) as [Hr Hd].
    fold e in Hr, Hd. rewrite Hid in Hd.
    unfold AutoLoopEnd.should_continue in Hcont. rewrite Hr in Hcont. cbn in Hcont.
    rewrite Hcont in Hd.
    assert (Hl : _loop_state e.2 !! loop_id =
                 Some {| State.current_index := Some (AutoLoopEnd.next_index e.1);
                         State.start_index := Some (dict_get (Signal.start_index sig) 0);
                         State.max_iterations :=
                           Some (dict_get (Signal.max_iterations sig) 1) |}).
    { rewrite Hd, Hr. apply lookup_insert_eq. }
    split; [exact Hl |].
    destruct (AutoLoopStart_run loop_id start_index max_iterations false e.2)
      as [Hc [_ Hw]].
    fold s in Hc, Hw. rewrite Hl in Hc, Hw. split; assumption.
  - intros st Hst s.
    destruct (AutoLoopStart_run loop_id start_index max_iterations false w)
      as [Hc [_ Hw]].
    fold s in Hc, Hw. rewrite Hst in Hc, Hw. split; assumption.
  - intros reset Hfresh s.
    destruct (AutoLoopStart_run loop_id start_index max_iterations reset w)
      as [Hc [_ Hw]].
    fold s in Hc, Hw.
    assert (Hnone : match _loop_state w !! loop_id, reset with
                    | Some st, false => Some st
                    | _, _ => None
                    end = None).
    { destruct Hfresh as [-> | ->]; [reflexivity |].
      destruct (_loop_state w !! loop_id); reflexivity. }
    rewrite Hnone in Hc, Hw. rewrite Hw. repeat split; assumption || reflexivity.
Qed.

Lemma auto_persistence_round_trip_witness :
  AutoLoopStart.current_index
    (AutoLoopStart.execute "loop_1" 0 3 false
       (AutoLoopEnd.execute (auto_signal "loop_1" 0 0 3) (@None unit) true true false
          fresh_world).2).1 = 1
  /\ AutoLoopStart.current_index
       (AutoLoopStart.execute "loop_1" 0 3 false
          (with_loop_state
             (fun d => <["loop_1"%string := State.mk (Some 2) (Some 0) (Some 3)]> d)
             fresh_world)).1 = 2
  /\ AutoLoopStart.current_index
       (AutoLoopStart.execute "loop_1" 0 3 true fresh_world).1 = 0.
Proof.
  destruct (@auto_persistence_round_trip unit fresh_world "loop_1" 0 3)
    as [_ [_ Hfresh]].
  destruct (@auto_persistence_round_trip unit
              (with_loop_state
                 (fun d => <["loop_1"%string := State.mk (Some 2) (Some 0) (Some 3)]> d)
                 fresh_world) "loop_1" 0 3) as [_ [Hresume _]].
  destruct (@auto_persistence_round_trip unit fresh_world "loop_1" 0 3) as [Hend _].
  split; [| split].
  - exact (proj1 (proj2 (Hend (auto_signal "loop_1" 0 0 3) None true true false
                           eq_refl eq_refl))).
  - exact (proj1 (Hresume (State.mk (Some 2) (Some 0) (Some 3)) eq_refl)).
  - exact (proj1 (Hfresh true (or_intror eq_refl))).
Defined.

Lemma auto_evaluation_run (loop_id : string) (s m : Z) (reset c g u : bool) (w : World) :
  let cur :=
    match _loop_state w !! loop_id, reset with
    | Some st, false => dict_get (State.current_index st) s
    | _, _ => s
    end in
  let r := auto_evaluation loop_id s m reset c g u w in
  AutoLoopStart.current_index r.1.1 = cur
  /\ r.1.2 = (None, cur + 1 <? s + m, cur + 1)
  /\ _loop_state r.2 =
       (if cur + 1 <? s + m
        then <[loop_id := {| State.current_index := Some (cur + 1);
                             State.start_index := Some s;
                             State.max_iterations := Some m |}]> (_loop_state w)
        else delete loop_id (_loop_state w)).
Proof.
  intros cur r. subst r. unfold auto_evaluation. run.
  destruct (AutoLoopStart_run loop_id s m reset w) as (Hc & Hs & Hw).
  set (st := AutoLoopStart.execute loop_id s m reset w) in *.
  assert (Hcur : AutoLoopStart.current_index st.1 = cur).
  { rewrite Hc. unfold cur.
    destruct (_loop_state w !! loop_id), reset; reflexivity. }
  destruct (AutoLoopEnd_run (AutoLoopStart.loop_signal st.1) (@None unit) c g u st.2)
    as (He & Hd).
  rewrite Hs in He, Hd. unfold end_index in He, Hd. cbn [dict_get Signal.current_index
    Signal.start_index Signal.max_iterations Signal.loop_id] in He, Hd.
  rewrite <- Hs in He, Hd. rewrite <- Hc, Hcur in He, Hd.
  split; [exact Hcur |]. split; [exact He |].
  rewrite Hd, Hw.
  destruct (_loop_state w !! loop_id), reset; cbn;
    destruct (cur + 1 <? s + m);
    rewrite ?insert_insert_eq, ?delete_insert_eq; reflexivity.
Qed.

Lemma AutoLoopEnd_auto_signal (loop_id : string) (cur s m : Z) (c g u : bool) (w : World) :
  (AutoLoopEnd.execute (auto_signal loop_id cur s m) (@None unit) c g u w).1
    = (None, cur + 1 <? s + m, cur + 1)
  /\ _loop_state (AutoLoopEnd.execute (auto_signal loop_id cur s m) (@None unit) c g u w).2 =
       (if cur + 1 <? s + m
        then <[loop_id := {| State.current_index := Some (cur + 1);
                             State.start_index := Some s;
                             State.max_iterations := Some m |}]> (_loop_state w)
        else delete loop_id (_loop_state w)).
Proof. exact (AutoLoopEnd_run (auto_signal loop_id cur s m) (@None unit) c g u w). Qed.

(** C2. The scenario [start_index = 0], [max_iterations = 3].  Manual mode:
    three [LoopEnd] calls, each fed the signal returned by the one before,
    move the cursor 0 -> 1, 1 -> 2, 2 -> 3 and answer true, true, false.
    Auto mode: three [AutoLoopEnd] calls on the signals of cursor 0, 1, 2
    give the same answers and leave no slot for the loop id, in whatever
    world they start; and three queued evaluations on a fresh loop id run
    through the same sequence and leave the slot absent. *)
Theorem scenario_three_iterations
    (w : World) (loop_id : string) (c g u : bool) :
  (let sig0 := LoopStart.loop_signal (LoopStart.execute 0 3 None) in
   let e1 := LoopEnd.execute sig0 (@None unit) c g u w in
   let e2 := LoopEnd.execute (LoopEnd.loop_signal e1.1) (@None unit) c g u e1.2 in
   let e3 := LoopEnd.execute (LoopEnd.loop_signal e2.1) (@None unit) c g u e2.2 in
   Signal.current_index sig0 = Some 0
   /\ (Signal.current_index (LoopEnd.loop_signal e1.1), LoopEnd.continue_loop e1.1)
        = (Some 1, true)
   /\ (Signal.current_index (LoopEnd.loop_signal e2.1), LoopEnd.continue_loop e2.1)
        = (Some 2, true)
   /\ (Signal.current_index (LoopEnd.loop_signal e3.1), LoopEnd.continue_loop e3.1)
        = (Some 3, false)
   /\ _loop_state e3.2 = _loop_state w)
  /\ (let a1 := AutoLoopEnd.execute (auto_signal loop_id 0 0 3) (@None unit) c g u w in
      let a2 := AutoLoopEnd.execute (auto_signal loop_id 1 0 3) (@None unit) c g u a1.2 in
      let a3 := AutoLoopEnd.execute (auto_signal loop_id 2 0 3) (@None unit) c g u a2.2 in
      (AutoLoopEnd.next_index a1.1, AutoLoopEnd.should_continue a1.1) = (1, true)
      /\ (AutoLoopEnd.next_index a2.1, AutoLoopEnd.should_continue a2.1) = (2, true)
      /\ (AutoLoopEnd.next_index a3.1, AutoLoopEnd.should_continue a3.1) = (3, false)
      /\ is_Some (_loop_state a1.2 !! loop_id)
      /\ is_Some (_loop_state a2.2 !! loop_id)
      /\ _loop_state a3.2 !! loop_id = None)
  /\ (_loop_state w !! loop_id = None ->
      let q := auto_queue 3 loop_id 0 3 c g u w in
      q.1 = [(0, 1, true); (1, 2, true); (2, 3, false)]
      /\ _loop_state q.2 !! loop_id = None).
Proof.
  split; [| split].
  - cbn zeta. rewrite !LoopEnd_run. cbn.
    repeat split. 
    rewrite !(proj1 (cleanup_memory_frame _ _ _ _)). reflexivity.
  - cbn zeta.
    destruct (AutoLoopEnd_auto_signal loop_id 0 0 3 c g u w) as [E1 D1].
    set (a1 := AutoLoopEnd.execute (auto_signal loop_id 0 0 3) (@None unit) c g u w) in *.
    destruct (AutoLoopEnd_auto_signal loop_id 1 0 3 c g u a1.2) as [E2 D2].
    set (a2 := AutoLoopEnd.execute (auto_signal loop_id 1 0 3) (@None unit) c g u a1.2) in *.
    destruct (AutoLoopEnd_auto_signal loop_id 2 0 3 c g u a2.2) as [E3 D3].
    set (a3 := AutoLoopEnd.execute (auto_signal loop_id 2 0 3) (@None unit) c g u a2.2) in *.
    change (0 + 1 <? 0 + 3) with true in E1, D1.
    change (1 + 1 <? 0 + 3) with true in E2, D2.
    change (2 + 1 <? 0 + 3) with false in E3, D3.
    cbn iota in D1, D2, D3.
    rewrite E1, E2, E3, D3, D2, D1.
    rewrite !lookup_insert_eq, lookup_delete_eq. repeat split; eauto.
  - intros Hfresh q. subst q. cbn [auto_queue]. run.
    destruct (auto_evaluation_run loop_id 0 3 false c g u w) as (C1 & E1 & D1).
    set (r1 := auto_evaluation loop_id 0 3 false c g u w) in *.
    rewrite Hfresh in C1, E1, D1.
    change (0 + 1 <? 0 + 3) with true in E1, D1. cbn iota in D1.
    destruct (auto_evaluation_run loop_id 0 3 false c g u r1.2) as (C2 & E2 & D2).
    set (r2 := auto_evaluation loop_id 0 3 false c g u r1.2) in *.
    rewrite D1, lookup_insert_eq in C2, E2, D2.
    cbn [dict_get State.current_index] in C2, E2, D2.
    change (0 + 1 + 1 <? 0 + 3) with true in E2, D2. cbn iota in D2.
    destruct (auto_evaluation_run loop_id 0 3 false c g u r2.2) as (C3 & E3 & D3).
    set (r3 := auto_evaluation loop_id 0 3 false c g u r2.2) in *.
    rewrite D2, lookup_insert_eq in C3, E3, D3.
    cbn [dict_get State.current_index] in C3, E3, D3.
    change (0 + 1 + 1 + 1 <? 0 + 3) with false in E3, D3. cbn iota in D3.
    rewrite C1, C2, C3, E1, E2, E3, D3. split; [reflexivity |].
    apply lookup_delete_eq.
Qed.

Lemma scenario_three_iterations_witness :
  (auto_queue 3 "loop_1" 0 3 true true false fresh_world).1
    = [(0, 1, true); (1, 2, true); (2, 3, false)]
  /\ _loop_state (auto_queue 3 "loop_1" 0 3 true true false fresh_world).2
       !! "loop_1"%string = None.
Proof.
  exact (proj2 (proj2 (scenario_three_iterations fresh_world "loop_1" true true false))
           eq_refl).
Defined.

(** C3, as stated, fails: a prior cursor below [start_index] is returned as
    it is.  [LoopStart] with [start_index = 5] on the signal of cursor 1 that
    a loop over [0 .. 3) produced returns 1, and so does [AutoLoopStart] on
    the slot such a loop left behind. *)
Lemma start_below_start_index_counterexample :
  LoopStart.current_index (LoopStart.execute 5 3 (Some (manual_signal 1 0 3))) = 1
  /\ ~ (5 <= LoopStart.current_index (LoopStart.execute 5 3 (Some (manual_signal 1 0 3))))
  /\ AutoLoopStart.current_index
       (AutoLoopStart.execute "loop_1" 5 3 false advanced_world).1 = 1
  /\ ~ (5 <= AutoLoopStart.current_index
               (AutoLoopStart.execute "loop_1" 5 3 false advanced_world).1).
Proof.
  assert (E : AutoLoopStart.current_index
                (AutoLoopStart.execute "loop_1" 5 3 false advanced_world).1 = 1)
    by (vm_compute; reflexivity).
  rewrite E. cbn. repeat split; lia.
Qed.

(** C3, amended.  Start returns the prior signal's or persisted record's
    [current_index] when there is one (for [AutoLoopStart]: and [reset] is
    false), [start_index] otherwise (also when the prior dict has no
    [current_index] key).  Nothing is clamped: the returned cursor is at
    least [start_index] exactly when no prior cursor is used or the prior
    cursor is itself at least [start_index]. *)
Theorem start_resumes_without_clamping (start_index max_iterations : Z) :
  LoopStart.current_index (LoopStart.execute start_index max_iterations None)
    = start_index
  /\ (forall prior : Signal.t,
        LoopStart.current_index
          (LoopStart.execute start_index max_iterations (Some prior))
        = dict_get (Signal.current_index prior) start_index)
  /\ (forall (w : World) (loop_id : string) (reset : bool),
        AutoLoopStart.current_index
          (AutoLoopStart.execute loop_id start_index max_iterations reset w).1
        = match _loop_state w !! loop_id, reset with
          | Some prior, false => dict_get (State.current_index prior) start_index
          | _, _ => start_index
          end)
  /\ (forall prior : Signal.t,
        start_index <= LoopStart.current_index
                         (LoopStart.execute start_index max_iterations (Some prior))
        <-> match Signal.current_index prior with
            | Some c => start_index <= c
            | None => True
            end)
  /\ (forall (w : World) (loop_id : string) (reset : bool),
        start_index <= AutoLoopStart.current_index
                         (AutoLoopStart.execute loop_id start_index max_iterations
                            reset w).1
        <-> match _loop_state w !! loop_id, reset with
            | Some prior, false =>
                match State.current_index prior with
                | Some c => start_index <= c
                | None => True
                end
            | _, _ => True
            end).
Proof.
  assert (Hauto : forall (w : World) (loop_id : string) (reset : bool),
             AutoLoopStart.current_index
               (AutoLoopStart.execute loop_id start_index max_iterations reset w).1
             = match _loop_state w !! loop_id, reset with
               | Some prior, false => dict_get (State.current_index prior) start_index
               | _, _ => start_index
               end).
  { intros w loop_id reset.
    rewrite (proj1 (AutoLoopStart_run loop_id start_index max_iterations reset w)).
    destruct (_loop_state w !! loop_id), reset; reflexivity. }
  split; [reflexivity |]. split; [reflexivity |]. split; [exact Hauto |]. split.
  - intros prior. cbn. destruct (Signal.current_index prior); cbn; [tauto | split; [auto | lia]].
  - intros w loop_id reset. rewrite Hauto.
    destruct (_loop_state w !! loop_id) as [prior |], reset;
      try (split; [auto | lia]).
    destruct (State.current_index prior); cbn; [tauto | split; [auto | lia]].
Qed.

(** C5, as stated, fails: a manual-mode signal has no [loop_id], so Break
    falls back on the id ["default"] and deletes that slot when it exists. *)
Lemma break_manual_signal_counterexample :
  Signal.loop_id (manual_signal 0 0 3) = None
  /\ _loop_state default_slot_world !! "default"%string
       = Some (State.mk (Some 0) (Some 0) (Some 3))
  /\ _loop_state (LoopBreak.execute (manual_signal 0 0 3) true (@None unit)
                    default_slot_world).2 !! "default"%string = None
  /\ _loop_state (LoopBreak.execute (manual_signal 0 0 3) true (@None unit)
                    default_slot_world).2 <> _loop_state default_slot_world.
Proof.
  assert (H1 : _loop_state default_slot_world !! "default"%string
               = Some (State.mk (Some 0) (Some 0) (Some 3)))
    by (vm_compute; reflexivity).
  assert (H2 : _loop_state (LoopBreak.execute (manual_signal 0 0 3) true (@None unit)
                              default_slot_world).2 !! "default"%string = None)
    by (vm_compute; reflexivity).
  repeat split; try assumption.
  intros E. rewrite E, H1 in H2. discriminate H2.
Qed.

(** C5, amended.  Break reports [did_break = break_condition] and hands the
    passthrough on; when the condition is true it deletes the slot of the
    signal's [loop_id] and nothing else, otherwise the world is untouched.
    For a signal without [loop_id] the slot deleted is that of the fallback
    id ["default"]: every other slot is unchanged, and the map is unchanged
    exactly when the condition is false or there is no slot ["default"]. *)
Theorem break_purges_slot {A : Type}
    (w : World) (sig : Signal.t) (break_condition : bool) (pt : option A) :
  let r := LoopBreak.execute sig break_condition pt w in
  LoopBreak.did_break r.1 = break_condition
  /\ LoopBreak.passthrough r.1 = pt
  /\ _loop_state r.2 =
       (if break_condition
        then delete (dict_get (Signal.loop_id sig) "default"%string) (_loop_state w)
        else _loop_state w)
  /\ cuda_is_available r.2 = cuda_is_available w
  /\ host_calls r.2 = host_calls w
  /\ (break_condition = false -> r.2 = w)
  /\ (Signal.loop_id sig = None ->
      (forall id : string,
          id <> "default"%string -> _loop_state r.2 !! id = _loop_state w !! id)
      /\ (_loop_state r.2 = _loop_state w
          <-> break_condition = false \/ _loop_state w !! "default"%string = None)).
Proof.
  intros r. subst r. unfold LoopBreak.execute. run.
  destruct break_condition; cbn [when ret fst snd LoopBreak.did_break LoopBreak.passthrough].
  - destruct (clear_loop_state_delete (dict_get (Signal.loop_id sig) "default"%string) w)
      as (Hd & Hc & Hh).
    rewrite Hd, Hc, Hh. do 5 (split; [reflexivity |]).
    split; [discriminate |].
    intros Hmanual. rewrite Hmanual. cbn [dict_get]. split.
    + intros id Hid. apply lookup_delete_ne. congruence.
    + split.
      * intros E. right. rewrite <- E. apply lookup_delete_eq.
      * intros [Hf | Hn]; [discriminate | apply delete_id, Hn].
  - do 6 (split; [reflexivity |]).
    intros _. split; [reflexivity |]. split; auto.
Qed.

Lemma break_purges_slot_witness :
  (forall id : string,
      id <> "default"%string ->
      _loop_state (LoopBreak.execute (manual_signal 0 0 3) true (@None unit)
                     default_slot_world).2 !! id
      = _loop_state default_slot_world !! id)
  /\ LoopBreak.execute (manual_signal 0 0 3) false (@None unit) default_slot_world
       = (None, false, default_slot_world).
Proof.
  pose proof (break_purges_slot default_slot_world (manual_signal 0 0 3) true (@None unit))
    as Htrue.
  pose proof (break_purges_slot default_slot_world (manual_signal 0 0 3) false (@None unit))
    as Hfalse.
  cbv zeta in Htrue, Hfalse.
  destruct Htrue as (_ & _ & _ & _ & _ & _ & Hmanual).
  destruct Hfalse as (_ & _ & _ & _ & _ & Hsame & _).
  split.
  - exact (proj1 (Hmanual eq_refl)).
  - apply injective_projections; [reflexivity | exact (Hsame eq_refl)].
Defined.

(** ** Counters along a chain of advances *)

Lemma AutoLoopStart_outputs (loop_id : string) (s m : Z) (reset : bool) (w : World) :
  let r := (AutoLoopStart.execute loop_id s m reset w).1 in
  let cur := AutoLoopStart.current_index r in
  r = (cur, cur - s, Z.max 0 (s + m - cur - 1),
       (if m >? 0 then int_truediv (cur - s + 1) m else Float64.one),
       cur >=? s + m - 1,
       {| Signal.current_index := Some cur;
          Signal.start_index := Some s;
          Signal.max_iterations := Some m;
          Signal.is_active := Some (cur <? s + m);
          Signal.loop_id := Some loop_id |}).
Proof.
  unfold AutoLoopStart.execute, get_loop_state. run.
  destruct (_loop_state w !! loop_id), reset; reflexivity.
Qed.

Lemma advance_run (n : nat) (c g u : bool) (sig : Signal.t) (w : World) :
  let out := (advance n c g u sig w).1 in
  dict_get (Signal.current_index out) 0
    = dict_get (Signal.current_index sig) 0 + Z.of_nat n
  /\ dict_get (Signal.start_index out) 0 = dict_get (Signal.start_index sig) 0
  /\ dict_get (Signal.max_iterations out) 1 = dict_get (Signal.max_iterations sig) 1
  /\ _loop_state (advance n c g u sig w).2 = _loop_state w.
Proof.
  revert sig w. induction n as [| n IH]; intros sig w.
  - cbn. repeat split; lia.
  - cbn [advance]. rewrite bind_run, LoopEnd_run. cbn [fst snd LoopEnd.loop_signal].
    match goal with
    | |- context [advance n c g u ?s ?w'] =>
        destruct (IH s w') as (Hc & Hs & Hm & Hd)
    end.
    cbn zeta in *. rewrite Hc, Hs, Hm, Hd. cbn [dict_get Signal.current_index
      Signal.start_index Signal.max_iterations].
    rewrite (proj1 (cleanup_memory_frame c g u w)).
    repeat split; lia.
Qed.

(** C4. [LoopCondition] and [LoopIndex] compute the same [remaining] on
    every signal.  Along the advances of a loop started at [start_index] the
    value is 0 from advance [max_iterations - 1] on, which is the advance at
    which [LoopEnd] answers false, and one advance before the signal stops
    being active; with [max_iterations >= 1] that advance exists: remaining
    is positive before it, 0 at it while the loop still continues, and the
    loop has stopped one advance later. *)
Theorem remaining_agrees_and_reaches_zero :
  (forall sig : Signal.t,
      LoopCondition.remaining (LoopCondition.execute sig)
      = LoopIndex.remaining (LoopIndex.execute sig))
  /\ (forall (s m : Z) (k : nat) (c g u : bool) (w w' : World),
        let sig_k :=
          (advance k c g u (LoopStart.loop_signal (LoopStart.execute s m None)) w).1 in
        (LoopCondition.remaining (LoopCondition.execute sig_k) = 0
         <-> m - 1 <= Z.of_nat k)
        /\ (LoopIndex.remaining (LoopIndex.execute sig_k) = 0
            <-> m - 1 <= Z.of_nat k)
        /\ (LoopEnd.continue_loop (LoopEnd.execute sig_k (@None unit) c g u w').1 = false
            <-> m - 1 <= Z.of_nat k)
        /\ (LoopCondition.should_continue (LoopCondition.execute sig_k) = false
            <-> m <= Z.of_nat k))
  /\ (forall (s m : Z) (c g u : bool) (w : World),
        1 <= m ->
        let sig_at (k : nat) :=
          (advance k c g u (LoopStart.loop_signal (LoopStart.execute s m None)) w).1 in
        let last := Z.to_nat (m - 1) in
        (forall k : nat,
            (k < last)%nat ->
            0 < LoopCondition.remaining (LoopCondition.execute (sig_at k)))
        /\ LoopCondition.remaining (LoopCondition.execute (sig_at last)) = 0
        /\ LoopCondition.should_continue (LoopCondition.execute (sig_at last)) = true
        /\ LoopCondition.should_continue (LoopCondition.execute (sig_at (S last)))
             = false).
Proof.
  assert (Hchain : forall (s m : Z) (k : nat) (c g u : bool) (w : World),
             let sig_k :=
               (advance k c g u (LoopStart.loop_signal (LoopStart.execute s m None)) w).1 in
             LoopCondition.execute sig_k
             = (s + Z.of_nat k <? s + m, s + Z.of_nat k,
                Z.max 0 (s + m - (s + Z.of_nat k) - 1))).
  { intros s m k c g u w sig_k.
    destruct (advance_run k c g u (LoopStart.loop_signal (LoopStart.execute s m None)) w)
      as (Hc & Hs & Hm & _).
    cbv zeta in Hc, Hs, Hm. fold sig_k in Hc, Hs, Hm.
    unfold LoopCondition.execute. rewrite Hc, Hs, Hm. reflexivity. }
  assert (Hagree : forall sig : Signal.t,
             LoopCondition.remaining (LoopCondition.execute sig)
             = LoopIndex.remaining (LoopIndex.execute sig)).
  { intros sig. cbn. f_equal. lia. }
  split; [exact Hagree |]. split.
  - intros s m k c g u w w' sig_k.
    rewrite <- Hagree. rewrite LoopEnd_run. subst sig_k. rewrite Hchain.
    cbn [LoopCondition.remaining LoopCondition.should_continue LoopEnd.continue_loop
           fst snd].
    destruct (advance_run k c g u (LoopStart.loop_signal (LoopStart.execute s m None)) w)
      as (Hc & Hs & Hm & _).
    cbv zeta in Hc, Hs, Hm. unfold end_index. rewrite Hc, Hs, Hm.
    cbn [LoopStart.execute LoopStart.loop_signal snd dict_get Signal.current_index
           Signal.start_index Signal.max_iterations].
    rewrite !Z.ltb_ge. repeat split; lia.
  - intros s m c g u w Hm sig_at last. subst sig_at. cbn beta.
    repeat split.
    + intros k Hk. rewrite Hchain. cbn [LoopCondition.remaining snd]. lia.
    + rewrite Hchain. cbn [LoopCondition.remaining snd]. lia.
    + rewrite Hchain. cbn [LoopCondition.should_continue fst snd].
      apply Z.ltb_lt. lia.
    + rewrite Hchain. cbn [LoopCondition.should_continue fst snd].
      apply Z.ltb_ge. lia.
Qed.

Lemma remaining_agrees_and_reaches_zero_witness :
  LoopCondition.remaining
    (LoopCondition.execute
       (advance 2 true true false
          (LoopStart.loop_signal (LoopStart.execute 0 3 None)) fresh_world).1) = 0
  /\ LoopCondition.should_continue
       (LoopCondition.execute
          (advance 3 true true false
             (LoopStart.loop_signal (LoopStart.execute 0 3 None)) fresh_world).1) = false.
Proof.
  destruct remaining_agrees_and_reaches_zero as (_ & _ & Hreach).
  destruct (Hreach 0 3 true true false fresh_world ltac:(lia)) as (_ & Hzero & _ & Hstop).
  split; [exact Hzero | exact Hstop].
Defined.

(** C6, as stated, fails: more than [current_index] and [is_active]
    changes.  [LoopEnd] builds its signal from the four counter keys alone,
    so the signal [AutoLoopStart] returns, which carries a [loop_id], comes
    back from [LoopEnd] without it. *)
Lemma advance_drops_loop_id_counterexample :
  AutoLoopStart.loop_signal (AutoLoopStart.execute "loop_1" 0 3 false fresh_world).1
    = auto_signal "loop_1" 0 0 3
  /\ Signal.loop_id (auto_signal "loop_1" 0 0 3) = Some "loop_1"%string
  /\ Signal.loop_id
       (LoopEnd.loop_signal
          (LoopEnd.execute (auto_signal "loop_1" 0 0 3) (@None unit) true true false
             fresh_world).1) = None
  /\ Signal.loop_id
       (LoopEnd.loop_signal
          (LoopEnd.execute (auto_signal "loop_1" 0 0 3) (@None unit) true true false
             fresh_world).1)
     <> Signal.loop_id (auto_signal "loop_1" 0 0 3).
Proof.
  split; [vm_compute; reflexivity |]. split; [reflexivity |].
  rewrite LoopEnd_run. cbn. split; [reflexivity | discriminate].
Qed.

(** C6, amended.  Advance preserves the loop bounds.  For every input
    signal the signal returned by [LoopEnd] is the record of the stepped
    cursor, the [start_index] and [max_iterations] the input was read with,
    the recomputed [is_active], and no [loop_id].  Its bounds are the
    input's own where the input has them, 0 and 1 where it does not; so
    [end_index] is the same before and after, and after any number of
    advances.  The [loop_id] is the only other field that can change: it is
    kept exactly when the input has none, so a manual-mode signal changes in
    [current_index] and [is_active] only, and an auto-mode signal comes back
    as the manual-mode signal of the next cursor.  The record [AutoLoopEnd]
    persists carries the same bounds. *)
Theorem advance_preserves_bounds {A : Type}
    (sig : Signal.t) (pt : option A) (c g u : bool) (w : World) :
  let out := LoopEnd.loop_signal (LoopEnd.execute sig pt c g u w).1 in
  Signal.start_index out = Signal.start_index (with_defaults sig)
  /\ Signal.max_iterations out = Signal.max_iterations (with_defaults sig)
  /\ dict_get (Signal.start_index out) 0 = dict_get (Signal.start_index sig) 0
  /\ dict_get (Signal.max_iterations out) 1 = dict_get (Signal.max_iterations sig) 1
  /\ end_index out = end_index sig
  /\ Signal.current_index out = Some (dict_get (Signal.current_index sig) 0 + 1)
  /\ Signal.is_active out
       = Some (dict_get (Signal.current_index sig) 0 + 1 <? end_index sig)
  /\ Signal.loop_id out = None
  /\ out = {| Signal.current_index := Some (dict_get (Signal.current_index sig) 0 + 1);
              Signal.start_index := Some (dict_get (Signal.start_index sig) 0);
              Signal.max_iterations := Some (dict_get (Signal.max_iterations sig) 1);
              Signal.is_active :=
                Some (dict_get (Signal.current_index sig) 0 + 1 <? end_index sig);
              Signal.loop_id := None |}
  /\ (forall s : Z,
        Signal.start_index sig = Some s ->
        Signal.start_index out = Signal.start_index sig)
  /\ (forall m : Z,
        Signal.max_iterations sig = Some m ->
        Signal.max_iterations out = Signal.max_iterations sig)
  /\ (Signal.start_index sig = None -> Signal.start_index out = Some 0)
  /\ (Signal.max_iterations sig = None -> Signal.max_iterations out = Some 1)
  /\ (Signal.loop_id out = Signal.loop_id sig <-> Signal.loop_id sig = None)
  /\ (forall cur s m : Z,
        LoopEnd.loop_signal (LoopEnd.execute (manual_signal cur s m) pt c g u w).1
        = manual_signal (cur + 1) s m)
  /\ (forall (loop_id : string) (cur s m : Z),
        LoopEnd.loop_signal (LoopEnd.execute (auto_signal loop_id cur s m) pt c g u w).1
        = manual_signal (cur + 1) s m)
  /\ (forall n : nat, end_index (advance n c g u sig w).1 = end_index sig)
  /\ (let a := AutoLoopEnd.execute sig pt c g u w in
      _loop_state a.2 !! dict_get (Signal.loop_id sig) "default"%string
      = if AutoLoopEnd.should_continue a.1
        then Some {| State.current_index := Some (AutoLoopEnd.next_index a.1);
                     State.start_index := Some (dict_get (Signal.start_index sig) 0);
                     State.max_iterations :=
                       Some (dict_get (Signal.max_iterations sig) 1) |}
        else None).
Proof.
  cbv zeta. rewrite LoopEnd_run. cbn [LoopEnd.loop_signal fst snd].
  do 9 (split; [reflexivity |]).
  cbn [Signal.start_index Signal.max_iterations Signal.loop_id].
  split; [intros s Hs; rewrite Hs; reflexivity |].
  split; [intros m Hm; rewrite Hm; reflexivity |].
  split; [intros Hs; rewrite Hs; reflexivity |].
  split; [intros Hm; rewrite Hm; reflexivity |].
  split; [split; intros H; [symmetry; exact H | symmetry; exact H] |].
  split; [intros cur s m; rewrite LoopEnd_run; reflexivity |].
  split; [intros loop_id cur s m; rewrite LoopEnd_run; reflexivity |].
  split.
  - intros n. destruct (advance_run n c g u sig w) as (_ & Hs & Hm & _).
    cbv zeta in Hs, Hm. unfold end_index. rewrite Hs, Hm. reflexivity.
  - destruct (AutoLoopEnd_run sig pt c g u w) as [Hr Hd]. cbv zeta in Hr, Hd.
    rewrite Hd, Hr. cbn [AutoLoopEnd.should_continue AutoLoopEnd.next_index fst snd].
    destruct (_ <? _).
    + apply lookup_insert_eq.
    + apply lookup_delete_eq.
Qed.

Lemma advance_preserves_bounds_witness :
  Signal.start_index
    (LoopEnd.loop_signal
       (LoopEnd.execute (auto_signal "loop_1" 1 5 3) (@None unit) true true false
          fresh_world).1)
  = Signal.start_index (auto_signal "loop_1" 1 5 3)
  /\ Signal.max_iterations
       (LoopEnd.loop_signal
          (LoopEnd.execute (auto_signal "loop_1" 1 5 3) (@None unit) true true false
             fresh_world).1)
     = Signal.max_iterations (auto_signal "loop_1" 1 5 3)
  /\ Signal.start_index
       (LoopEnd.loop_signal
          (LoopEnd.execute (Signal.mk (Some 0) None None None None) (@None unit)
             true true false fresh_world).1) = Some 0
  /\ Signal.loop_id
       (LoopEnd.loop_signal
          (LoopEnd.execute (manual_signal 1 5 3) (@None unit) true true false
             fresh_world).1)
     = Signal.loop_id (manual_signal 1 5 3).
Proof.
  pose proof (@advance_preserves_bounds unit (auto_signal "loop_1" 1 5 3) None
                true true false fresh_world) as Hauto.
  pose proof (@advance_preserves_bounds unit (Signal.mk (Some 0) None None None None)
                None true true false fresh_world) as Hbare.
  pose proof (@advance_preserves_bounds unit (manual_signal 1 5 3) None
                true true false fresh_world) as Hmanual.
  cbv zeta in Hauto, Hbare, Hmanual.
  destruct Hauto as (_ & _ & _ & _ & _ & _ & _ & _ & _ & Hs & Hm & _).
  destruct Hbare as (_ & _ & _ & _ & _ & _ & _ & _ & _ & _ & _ & Hs0 & _).
  destruct Hmanual as (_ & _ & _ & _ & _ & _ & _ & _ & _ & _ & _ & _ & _ & Hid & _).
  split; [exact (Hs 5 eq_refl) |]. split; [exact (Hm 3 eq_refl) |].
  split; [exact (Hs0 eq_refl) |]. exact (proj2 Hid eq_refl).
Defined.

(** C7. The progress of [LoopIndex] never decreases from a signal to the
    one [LoopEnd] makes of it, hence along any chain of advances; at the
    final iteration of a loop with [max_iterations >= 1], that is at
    [current_index = start_index + max_iterations - 1], it is exactly 1.0.
    [AutoLoopStart] reports the progress [LoopIndex] computes from the same
    signal. *)
Theorem progress_monotone_and_complete :
  (forall (sig : Signal.t) (c g u : bool) (w : World),
      (LoopIndex.progress (LoopIndex.execute sig)
       <= LoopIndex.progress
            (LoopIndex.execute
               (LoopEnd.loop_signal (LoopEnd.execute sig (@None unit) c g u w).1)))%Q)
  /\ (forall (s m : Z) (j k : nat) (c g u : bool) (w : World),
        1 <= m ->
        (j <= k)%nat ->
        let sig_at (n : nat) :=
          (advance n c g u (LoopStart.loop_signal (LoopStart.execute s m None)) w).1 in
        (LoopIndex.progress (LoopIndex.execute (sig_at j))
         <= LoopIndex.progress (LoopIndex.execute (sig_at k)))%Q
        /\ LoopIndex.progress (LoopIndex.execute (sig_at (Z.to_nat (m - 1))))
             = Float64.one)
  /\ (forall sig : Signal.t,
        1 <= dict_get (Signal.max_iterations sig) 1 ->
        dict_get (Signal.current_index sig) 0
          = dict_get (Signal.start_index sig) 0
            + dict_get (Signal.max_iterations sig) 1 - 1 ->
        LoopIndex.progress (LoopIndex.execute sig) = Float64.one)
  /\ (forall (w : World) (loop_id : string) (s m : Z) (reset : bool),
        let r := (AutoLoopStart.execute loop_id s m reset w).1 in
        AutoLoopStart.progress r
        = LoopIndex.progress (LoopIndex.execute (AutoLoopStart.loop_signal r))).
Proof.
  assert (Hprog : forall sig : Signal.t,
             LoopIndex.progress (LoopIndex.execute sig)
             = if dict_get (Signal.max_iterations sig) 1 >? 0
               then int_truediv
                      (dict_get (Signal.current_index sig) 0
                       - dict_get (Signal.start_index sig) 0 + 1)
                      (dict_get (Signal.max_iterations sig) 1)
               else Float64.one) by reflexivity.
  assert (Hlast : forall sig : Signal.t,
             1 <= dict_get (Signal.max_iterations sig) 1 ->
             dict_get (Signal.current_index sig) 0
               = dict_get (Signal.start_index sig) 0
                 + dict_get (Signal.max_iterations sig) 1 - 1 ->
             LoopIndex.progress (LoopIndex.execute sig) = Float64.one).
  { intros sig Hm Hc. rewrite Hprog, Hc.
    destruct (Z.gtb_spec (dict_get (Signal.max_iterations sig) 1) 0) as [Hpos | Hneg];
      [| lia].
    match goal with
    | |- int_truediv ?a ?b = _ => replace a with b by lia
    end.
    apply int_truediv_diag. lia. }
  split; [| split; [| split]].
  - intros sig c g u w. rewrite LoopEnd_run. rewrite !Hprog.
    cbn [LoopEnd.loop_signal fst snd dict_get Signal.current_index Signal.start_index
           Signal.max_iterations].
    destruct (Z.gtb_spec (dict_get (Signal.max_iterations sig) 1) 0) as [Hpos | Hneg].
    + apply int_truediv_mono; lia.
    + apply Qle_refl.
  - intros s m j k c g u w Hm Hjk sig_at.
    assert (Hat : forall n : nat,
               LoopIndex.progress (LoopIndex.execute (sig_at n))
               = int_truediv (Z.of_nat n + 1) m).
    { intros n. rewrite Hprog. subst sig_at. cbv beta.
      destruct (advance_run n c g u (LoopStart.loop_signal (LoopStart.execute s m None)) w)
        as (Hc & Hs & Hmx & _).
      cbv zeta in Hc, Hs, Hmx. rewrite Hc, Hs, Hmx.
      cbn [LoopStart.execute LoopStart.loop_signal snd dict_get Signal.current_index
             Signal.start_index Signal.max_iterations].
      destruct (Z.gtb_spec m 0) as [Hpos | Hneg]; [| lia].
      f_equal. lia. }
    split.
    + rewrite !Hat. apply int_truediv_mono; lia.
    + rewrite Hat. replace (Z.of_nat (Z.to_nat (m - 1)) + 1) with m by lia.
      apply int_truediv_diag. lia.
  - exact Hlast.
  - intros w loop_id s m reset r. subst r.
    rewrite (AutoLoopStart_outputs loop_id s m reset w). reflexivity.
Qed.

Lemma progress_monotone_and_complete_witness :
  (LoopIndex.progress
     (LoopIndex.execute
        (advance 1 true true false
           (LoopStart.loop_signal (LoopStart.execute 0 3 None)) fresh_world).1)
   <= LoopIndex.progress
        (LoopIndex.execute
           (advance 2 true true false
              (LoopStart.loop_signal (LoopStart.execute 0 3 None)) fresh_world).1))%Q
  /\ LoopIndex.progress (LoopIndex.execute (manual_signal 2 0 3)) = Float64.one.
Proof.
  destruct progress_monotone_and_complete as (_ & Hchain & Hlast & _).
  split.
  - exact (proj1 (Hchain 0 3 1%nat 2%nat true true false fresh_world
                    ltac:(lia) ltac:(lia))).
  - exact (Hlast (manual_signal 2 0 3) ltac:(cbn; lia) eq_refl).
Defined.

(** C8. The reading nodes are total on signals with absent counters, and
    treat an absent [current_index] or [start_index] as 0 and an absent
    [max_iterations] as 1: each of [LoopEnd], [LoopCondition], [LoopIndex]
    and [AutoLoopEnd] returns on any signal what it returns on the signal
    with those values written out, in the same world.  On the signal with
    none of the three they return the outputs of the loop [0 .. 1) at
    cursor 0. *)
Theorem reading_nodes_default_missing_fields {A : Type}
    (sig : Signal.t) (pt : option A) (c g u : bool) (w : World) :
  Signal.current_index (with_defaults sig)
    = Some (match Signal.current_index sig with Some v => v | None => 0 end)
  /\ Signal.start_index (with_defaults sig)
       = Some (match Signal.start_index sig with Some v => v | None => 0 end)
  /\ Signal.max_iterations (with_defaults sig)
       = Some (match Signal.max_iterations sig with Some v => v | None => 1 end)
  /\ LoopEnd.execute sig pt c g u w = LoopEnd.execute (with_defaults sig) pt c g u w
  /\ LoopCondition.execute sig = LoopCondition.execute (with_defaults sig)
  /\ LoopIndex.execute sig = LoopIndex.execute (with_defaults sig)
  /\ AutoLoopEnd.execute sig pt c g u w
       = AutoLoopEnd.execute (with_defaults sig) pt c g u w
  /\ (forall (a : option bool) (l : option string),
        let bare := Signal.mk None None None a l in
        (LoopEnd.execute bare pt c g u w).1 = (manual_signal 1 0 1, pt, false)
        /\ LoopCondition.execute bare = (true, 0, 0)
        /\ LoopIndex.execute bare = (0, 0, 1, 0, Float64.one)
        /\ (AutoLoopEnd.execute bare pt c g u w).1 = (pt, false, 1)).
Proof.
  do 7 (split; [reflexivity |]).
  intros a l bare. rewrite LoopEnd_run.
  rewrite (proj1 (AutoLoopEnd_run bare pt c g u w)).
  repeat split.
Qed.

(** C9. Integer Iterator on [start = 0], [end = 10], [step = 2]: value 6
    with more to come at iteration 3, value 8 with more to come at iteration
    4, value 10 and no more at iteration 5.  In general the value is
    [start + current_iteration * step] and, for a positive step, there is
    more exactly when [value + step <= end]. *)
Theorem int_iterator_scenario :
  IntIterator.execute 0 10 2 3 = (6, 3, true)
  /\ IntIterator.execute 0 10 2 4 = (8, 4, true)
  /\ IntIterator.execute 0 10 2 5 = (10, 5, false)
  /\ (forall start end_ step current_iteration : Z,
        let r := IntIterator.execute start end_ step current_iteration in
        IntIterator.value r = start + current_iteration * step
        /\ IntIterator.iteration r = current_iteration
        /\ (0 < step ->
            (IntIterator.has_more r = true <-> IntIterator.value r + step <= end_))).
Proof.
  do 3 (split; [reflexivity |]).
  intros start end_ step current_iteration r. subst r.
  do 2 (split; [reflexivity |]).
  intros Hstep. cbn.
  destruct (Z.gtb_spec step 0) as [_ | Hneg]; [| lia].
  apply Z.leb_le.
Qed.

Lemma int_iterator_scenario_witness :
  IntIterator.has_more (IntIterator.execute 0 10 2 4) = true <-> 8 + 2 <= 10.
Proof.
  destruct int_iterator_scenario as (_ & _ & _ & Hgen).
  exact (proj2 (proj2 (Hgen 0 10 2 4)) ltac:(lia)).
Defined.

(** C10. [AutoLoopStart] reports [is_last] exactly when it reports
    [remaining = 0], whatever the loop id, the inputs and the stored
    state. *)
Theorem is_last_iff_remaining_zero
    (w : World) (loop_id : string) (start_index max_iterations : Z) (reset : bool) :
  let r := (AutoLoopStart.execute loop_id start_index max_iterations reset w).1 in
  AutoLoopStart.is_last r = true <-> AutoLoopStart.remaining r = 0.
Proof.
  intros r. subst r.
  rewrite (AutoLoopStart_outputs loop_id start_index max_iterations reset w).
  cbn [AutoLoopStart.is_last AutoLoopStart.remaining fst snd].
  rewrite Z.geb_le. lia.
Qed.

(** * Further properties of the code *)

(** ** The store *)

(** X1. [set_loop_state] then [get_loop_state] on the same id returns the
    record just stored and every other id reads as before; clearing an id
    makes it read [None] and leaves the others; clearing an id that has no
    slot changes nothing at all (no [KeyError]); none of the three touches
    the host. *)
Theorem store_round_trip (w : World) (loop_id other : string) (state : State.t) :
  (get_loop_state loop_id (set_loop_state loop_id state w).2).1 = Some state
  /\ (other <> loop_id ->
      (get_loop_state other (set_loop_state loop_id state w).2).1
      = (get_loop_state other w).1
      /\ (get_loop_state other (clear_loop_state (Some loop_id) w).2).1
         = (get_loop_state other w).1)
  /\ (get_loop_state loop_id (clear_loop_state (Some loop_id) w).2).1 = None
  /\ ((get_loop_state loop_id w).1 = None -> clear_loop_state (Some loop_id) w = (tt, w))
  /\ (get_loop_state loop_id w).2 = w
  /\ host_calls (set_loop_state loop_id state w).2 = host_calls w
  /\ host_calls (clear_loop_state (Some loop_id) w).2 = host_calls w.
Proof.
  destruct (clear_loop_state_delete loop_id w) as (Hd & _ & Hh).
  unfold get_loop_state. cbn [fst snd]. rewrite Hd, Hh.
  split; [apply lookup_insert_eq |]. split.
  { intros Hne. split.
    - cbn. apply lookup_insert_ne. congruence.
    - apply lookup_delete_ne. congruence. }
  split; [apply lookup_delete_eq |]. split; [| auto].
  intros Hnone. unfold clear_loop_state.
  destruct (decide _) as [[st Hst] | _]; [congruence | reflexivity].
Qed.

Lemma store_round_trip_witness :
  (get_loop_state "loop_1"
     (set_loop_state "default" (State.mk (Some 1) (Some 0) (Some 3)) fresh_world).2).1
    = None
  /\ clear_loop_state (Some "loop_1"%string) fresh_world = (tt, fresh_world).
Proof.
  destruct (store_round_trip fresh_world "default" "loop_1"
              (State.mk (Some 1) (Some 0) (Some 3))) as (_ & Hother & _).
  destruct (store_round_trip fresh_world "loop_1" "default"
              (State.mk (Some 1) (Some 0) (Some 3))) as (_ & _ & _ & Hnoop & _).
  split.
  - exact (proj1 (Hother ltac:(discriminate))).
  - exact (Hnoop eq_refl).
Defined.

(** X2. [clear_loop_state()] without an id empties the store: every id
    reads [None] afterwards, so [AutoLoopStart] on any id starts over at its
    [start_index], whatever the slots held. *)
Theorem clear_all_restarts_every_loop
    (w : World) (loop_id : string) (start_index max_iterations : Z) (reset : bool) :
  let w' := (clear_loop_state None w).2 in
  (get_loop_state loop_id w').1 = None
  /\ AutoLoopStart.current_index
       (AutoLoopStart.execute loop_id start_index max_iterations reset w').1
     = start_index
  /\ host_calls w' = host_calls w.
Proof.
  cbv zeta.
  assert (Hnone : _loop_state (clear_loop_state None w).2 !! loop_id = None)
    by apply lookup_empty.
  split; [exact Hnone |]. split; [| reflexivity].
  rewrite (proj1 (AutoLoopStart_run loop_id start_index max_iterations reset _)).
  rewrite Hnone. reflexivity.
Qed.

(** ** Requests to the host *)

Lemma cleanup_memory_run (c g u : bool) (w : World) :
  _cleanup_memory c g u w = (tt, log (cleanup_requests c g u (cuda_is_available w)) w).
Proof.
  destruct w as [d av calls].
  destruct c, g, u, av; cbv - [app]; rewrite <- ?app_assoc, ?app_nil_r; reflexivity.
Qed.

(** X3. [_cleanup_memory] appends to the host's log, in this order, the
    model unload and soft cache release when [unload_models], the CUDA cache
    release and IPC collection when [clear_cuda_cache] and CUDA is
    available, and one collection when [run_gc]; it changes nothing else.
    Without CUDA no CUDA request is ever sent, and with the three flags off
    the world is left as it was. *)
Theorem cleanup_memory_requests (c g u : bool) (w : World) :
  _cleanup_memory c g u w = (tt, log (cleanup_requests c g u (cuda_is_available w)) w)
  /\ (cuda_is_available w = false ->
      forall call : HostCall,
        In call (cleanup_requests c g u (cuda_is_available w)) ->
        call <> cuda_empty_cache /\ call <> cuda_ipc_collect /\ call <> cuda_synchronize)
  /\ (c = false -> g = false -> u = false ->
      host_calls (_cleanup_memory c g u w).2 = host_calls w).
Proof.
  split; [apply cleanup_memory_run |]. split.
  - intros Hav call. rewrite Hav. unfold cleanup_requests.
    rewrite andb_false_r. destruct u, g; cbn; intuition (subst; discriminate).
  - intros -> -> ->. rewrite cleanup_memory_run. cbn. apply app_nil_r.
Qed.

Lemma cleanup_memory_requests_witness :
  (forall call : HostCall,
      In call (cleanup_requests true true true false) ->
      call <> cuda_empty_cache /\ call <> cuda_ipc_collect /\ call <> cuda_synchronize)
  /\ host_calls (_cleanup_memory false false false fresh_world).2 = [].
Proof.
  destruct (cleanup_memory_requests true true true fresh_world) as (_ & Hcuda & _).
  destruct (cleanup_memory_requests false false false fresh_world) as (_ & _ & Hoff).
  split.
  - exact (Hcuda eq_refl).
  - exact (Hoff eq_refl eq_refl eq_refl).
Defined.

(** X4. [MemoryCleanup.execute] hands its trigger on, never touches the
    loop store, and appends its requests in program order: with
    [aggressive_cleanup] the model cleanup and (with CUDA) a synchronize
    come before the cache release, and [run_gc] collects three times
    instead of once.  Without [aggressive_cleanup] it does exactly what the
    End nodes' [_cleanup_memory] does. *)
Theorem memory_cleanup_requests_spec {A : Type}
    (trigger : A) (c g u a : bool) (w : World) :
  MemoryCleanup.execute trigger c g u a w
    = (trigger, log (memory_cleanup_requests c g u a (cuda_is_available w)) w)
  /\ _loop_state (MemoryCleanup.execute trigger c g u a w).2 = _loop_state w
  /\ (MemoryCleanup.execute trigger c g u false w).2 = (_cleanup_memory c g u w).2
  /\ (count_occ HostCall_eq_dec
        (memory_cleanup_requests c g u a (cuda_is_available w)) gc_collect
      = if g then (if a then 3 else 1)%nat else 0%nat).
Proof.
  assert (Hrun : forall a' : bool,
             MemoryCleanup.execute trigger c g u a' w
             = (trigger,
                log (memory_cleanup_requests c g u a' (cuda_is_available w)) w)).
  { intros a'. destruct w as [d av calls].
    destruct c, g, u, a', av; cbv - [app]; rewrite <- ?app_assoc, ?app_nil_r;
      reflexivity. }
  split; [apply Hrun |]. split; [rewrite Hrun; reflexivity |]. split.
  - rewrite Hrun, cleanup_memory_run. reflexivity.
  - destruct c, g, u, a, (cuda_is_available w); reflexivity.
Qed.

(** ** Purging and restarting *)

Lemma AutoLoopStart_fresh (loop_id : string) (s m : Z) (reset : bool) (w : World) :
  _loop_state w !! loop_id = None \/ reset = true ->
  AutoLoopStart.current_index (AutoLoopStart.execute loop_id s m reset w).1 = s
  /\ _loop_state (AutoLoopStart.execute loop_id s m reset w).2 !! loop_id
     = Some {| State.current_index := Some s;
               State.start_index := Some s;
               State.max_iterations := Some m |}.
Proof.
  intros Hfresh.
  destruct (AutoLoopStart_run loop_id s m reset w) as (Hc & _ & Hw).
  assert (Hnone : match _loop_state w !! loop_id, reset with
                  | Some st, false => Some st
                  | _, _ => None
                  end = None).
  { destruct Hfresh as [-> | ->]; [reflexivity |].
    destruct (_loop_state w !! loop_id); reflexivity. }
  rewrite Hnone in Hc, Hw. rewrite Hc, Hw. split; [reflexivity |].
  apply lookup_insert_eq.
Qed.

Lemma IS_CHANGED_run (loop_id : string) (s m : Z) (reset : bool) (w : World) :
  AutoLoopStart.IS_CHANGED loop_id s m reset w
  = (match _loop_state w !! loop_id, reset with
     | Some state, false => token (dict_get (State.current_index state) 0)
     | _, _ => nan
     end, w).
Proof.
  unfold AutoLoopStart.IS_CHANGED, get_loop_state. run.
  destruct (_loop_state w !! loop_id), reset; reflexivity.
Qed.

(** X5. [LoopReset] hands its trigger on and deletes the slot of its loop
    id, whatever it held: the next [AutoLoopStart] on that id starts over at
    its [start_index] and [IS_CHANGED] reports the always-changed token.
    Other loops' slots and the host are untouched. *)
Theorem reset_restarts_loop {A : Type}
    (w : World) (loop_id other : string) (trigger : A)
    (start_index max_iterations : Z) (reset : bool) :
  let r := LoopReset.execute loop_id trigger w in
  r.1 = trigger
  /\ _loop_state r.2 !! loop_id = None
  /\ (other <> loop_id -> _loop_state r.2 !! other = _loop_state w !! other)
  /\ host_calls r.2 = host_calls w
  /\ AutoLoopStart.current_index
       (AutoLoopStart.execute loop_id start_index max_iterations reset r.2).1
     = start_index
  /\ (AutoLoopStart.IS_CHANGED loop_id start_index max_iterations reset r.2).1 = nan.
Proof.
  intros r. subst r. unfold LoopReset.execute. run.
  destruct (clear_loop_state_delete loop_id w) as (Hd & _ & Hh).
  assert (Hnone : _loop_state (clear_loop_state (Some loop_id) w).2 !! loop_id = None)
    by (rewrite Hd; apply lookup_delete_eq).
  split; [reflexivity |]. split; [exact Hnone |]. split.
  { intros Hne. rewrite Hd. apply lookup_delete_ne. congruence. }
  split; [exact Hh |]. split.
  - apply AutoLoopStart_fresh. left. exact Hnone.
  - rewrite IS_CHANGED_run, Hnone. reflexivity.
Qed.

Lemma reset_restarts_loop_witness :
  _loop_state (LoopReset.execute "default" tt advanced_world).2 !! "loop_1"%string
  = _loop_state advanced_world !! "loop_1"%string.
Proof.
  destruct (reset_restarts_loop advanced_world "default" "loop_1" tt 0 3 false)
    as (_ & _ & Hother & _).
  exact (Hother ltac:(discriminate)).
Defined.

(** X6. A break that fires makes the loop of the signal's id start over:
    after [LoopBreak] with a true condition, [AutoLoopStart] on that id
    returns its [start_index], wherever the cursor stood, and stores the
    fresh record; [IS_CHANGED] reports the always-changed token in
    between. *)
Theorem break_restarts_loop {A : Type}
    (w : World) (sig : Signal.t) (pt : option A)
    (start_index max_iterations : Z) (reset : bool) :
  let loop_id := dict_get (Signal.loop_id sig) "default"%string in
  let b := LoopBreak.execute sig true pt w in
  let s := AutoLoopStart.execute loop_id start_index max_iterations reset b.2 in
  (AutoLoopStart.IS_CHANGED loop_id start_index max_iterations reset b.2).1 = nan
  /\ AutoLoopStart.current_index s.1 = start_index
  /\ _loop_state s.2 !! loop_id
     = Some {| State.current_index := Some start_index;
               State.start_index := Some start_index;
               State.max_iterations := Some max_iterations |}.
Proof.
  intros loop_id b s.
  assert (Hnone : _loop_state b.2 !! loop_id = None).
  { subst b loop_id. unfold LoopBreak.execute. run. cbn [when].
    rewrite (proj1 (clear_loop_state_delete _ w)). apply lookup_delete_eq. }
  split; [rewrite IS_CHANGED_run, Hnone; reflexivity |].
  apply AutoLoopStart_fresh. left. exact Hnone.
Qed.

(** ** Loops side by side *)

Lemma AutoLoopEnd_world {A : Type} (sig : Signal.t) (pt : option A) (c g u : bool)
    (w : World) :
  cuda_is_available (AutoLoopEnd.execute sig pt c g u w).2 = cuda_is_available w
  /\ host_calls (AutoLoopEnd.execute sig pt c g u w).2
     = (host_calls w ++ cleanup_requests c g u (cuda_is_available w))%list.
Proof.
  unfold AutoLoopEnd.execute. run. rewrite cleanup_memory_run. cbn [snd].
  destruct (negb _); cbn [when ret snd].
  - match goal with
    | |- context [clear_loop_state (Some ?i) ?w'] =>
        destruct (clear_loop_state_delete i w') as (_ & Hc & Hh)
    end.
    rewrite Hc, Hh. split; reflexivity.
  - split; reflexivity.
Qed.

(** X7. Loops with different ids do not disturb each other: neither
    [AutoLoopStart] nor [AutoLoopEnd] changes the slot of an id other than
    its own, so another loop resumes from the same cursor before and after
    a full evaluation of this one.  [AutoLoopStart] sends nothing to the
    host. *)
Theorem auto_loops_independent {A : Type}
    (w : World) (loop_id other : string) (s m s' m' : Z) (reset c g u : bool)
    (sig : Signal.t) (pt : option A) :
  other <> loop_id ->
  _loop_state (AutoLoopStart.execute loop_id s m reset w).2 !! other
    = _loop_state w !! other
  /\ host_calls (AutoLoopStart.execute loop_id s m reset w).2 = host_calls w
  /\ (dict_get (Signal.loop_id sig) "default"%string = loop_id ->
      _loop_state (AutoLoopEnd.execute sig pt c g u w).2 !! other
      = _loop_state w !! other)
  /\ AutoLoopStart.current_index
       (AutoLoopStart.execute other s' m' false
          (auto_evaluation loop_id s m reset c g u w).2).1
     = AutoLoopStart.current_index (AutoLoopStart.execute other s' m' false w).1.
Proof.
  intros Hne.
  assert (Hstart : _loop_state (AutoLoopStart.execute loop_id s m reset w).2 !! other
                   = _loop_state w !! other
                   /\ host_calls (AutoLoopStart.execute loop_id s m reset w).2
                      = host_calls w).
  { destruct (AutoLoopStart_run loop_id s m reset w) as (_ & _ & Hw). rewrite Hw.
    destruct (_loop_state w !! loop_id), reset; cbn; split;
      reflexivity || (apply lookup_insert_ne; congruence). }
  destruct Hstart as [Hs Hh]. split; [exact Hs |]. split; [exact Hh |]. split.
  - intros Hid. rewrite (proj2 (AutoLoopEnd_run sig pt c g u w)). rewrite Hid.
    destruct (_ <? _).
    + apply lookup_insert_ne. congruence.
    + apply lookup_delete_ne. congruence.
  - rewrite !(proj1 (AutoLoopStart_run other s' m' false _)).
    destruct (auto_evaluation_run loop_id s m reset c g u w) as (_ & _ & Hd).
    cbv zeta in Hd. rewrite Hd.
    match goal with
    | |- context [(if ?b then _ else _) !! other] => destruct b
    end.
    + rewrite lookup_insert_ne by congruence. reflexivity.
    + rewrite lookup_delete_ne by congruence. reflexivity.
Qed.

Lemma auto_loops_independent_witness :
  AutoLoopStart.current_index
    (AutoLoopStart.execute "loop_1" 0 3 false
       (auto_evaluation "default" 0 3 false true true false advanced_world).2).1
  = AutoLoopStart.current_index (AutoLoopStart.execute "loop_1" 0 3 false advanced_world).1.
Proof.
  exact (proj2 (proj2 (proj2
    (@auto_loops_independent unit advanced_world "default" "loop_1" 0 3 0 3
       false true true false (manual_signal 0 0 3) None ltac:(discriminate))))).
Defined.

(** X8. [IS_CHANGED] only reads: the world is unchanged.  It reports the
    always-changed token exactly when the slot is absent or [reset] is set,
    and otherwise the cursor stored in the slot, whatever the node's
    [start_index] and [max_iterations] inputs and whatever bounds the record
    carries; when the record has a cursor that is the cursor
    [AutoLoopStart] then returns.  After an evaluation that continues it
    reports the cursor of the next evaluation, so the token differs from the
    one before; after the evaluation that ends the loop it is the
    always-changed token; after an [AutoLoopStart] on a fresh id or with
    reset it is [start_index]. *)
Theorem is_changed_tracks_cursor
    (w : World) (loop_id : string) (s m : Z) (reset c g u : bool) :
  (AutoLoopStart.IS_CHANGED loop_id s m reset w).2 = w
  /\ ((AutoLoopStart.IS_CHANGED loop_id s m reset w).1 = nan
      <-> _loop_state w !! loop_id = None \/ reset = true)
  /\ (forall record : State.t,
        _loop_state w !! loop_id = Some record ->
        (AutoLoopStart.IS_CHANGED loop_id s m false w).1
        = token (dict_get (State.current_index record) 0))
  /\ (forall (record : State.t) (cursor : Z),
        _loop_state w !! loop_id = Some record ->
        State.current_index record = Some cursor ->
        (AutoLoopStart.IS_CHANGED loop_id s m false w).1 = token cursor
        /\ AutoLoopStart.current_index (AutoLoopStart.execute loop_id s m false w).1
           = cursor)
  /\ (let r := auto_evaluation loop_id s m reset c g u w in
      (AutoLoopStart.IS_CHANGED loop_id s m false r.2).1
      = if AutoLoopEnd.should_continue r.1.2
        then token (AutoLoopStart.current_index r.1.1 + 1)
        else nan)
  /\ (_loop_state w !! loop_id = None \/ reset = true ->
      (AutoLoopStart.IS_CHANGED loop_id s m false
         (AutoLoopStart.execute loop_id s m reset w).2).1 = token s).
Proof.
  split; [rewrite IS_CHANGED_run; reflexivity |].
  split; [| split; [| split; [| split]]].
  - rewrite IS_CHANGED_run. cbn [fst].
    destruct (_loop_state w !! loop_id), reset; split; intros H;
      try reflexivity; try discriminate; auto.
    destruct H as [H | H]; discriminate.
  - intros record Hrec. rewrite IS_CHANGED_run, Hrec. reflexivity.
  - intros record cursor Hrec Hcur. split.
    + rewrite IS_CHANGED_run, Hrec, Hcur. reflexivity.
    + rewrite (proj1 (AutoLoopStart_run loop_id s m false w)), Hrec, Hcur.
      reflexivity.
  - cbv zeta. rewrite IS_CHANGED_run. cbn [fst].
    destruct (auto_evaluation_run loop_id s m reset c g u w) as (Hc & He & Hd).
    cbv zeta in Hc, He, Hd. rewrite Hd, He, Hc.
    cbn [AutoLoopEnd.should_continue fst snd].
    destruct (_ <? _).
    + rewrite lookup_insert_eq. reflexivity.
    + rewrite lookup_delete_eq. reflexivity.
  - intros Hfresh. rewrite IS_CHANGED_run. cbn [fst].
    rewrite (proj2 (AutoLoopStart_fresh loop_id s m reset w Hfresh)). reflexivity.
Qed.

Lemma is_changed_tracks_cursor_witness :
  (AutoLoopStart.IS_CHANGED "loop_1" 0 3 false
     (AutoLoopStart.execute "loop_1" 0 3 true advanced_world).2).1 = token 0
  /\ (AutoLoopStart.IS_CHANGED "loop_1" 5 7 false advanced_world).1 = token 1
  /\ AutoLoopStart.current_index
       (AutoLoopStart.execute "loop_1" 5 7 false advanced_world).1 = 1.
Proof.
  destruct (is_changed_tracks_cursor advanced_world "loop_1" 0 3 true true true false)
    as (_ & _ & _ & _ & _ & Hfresh).
  destruct (is_changed_tracks_cursor advanced_world "loop_1" 5 7 false true true false)
    as (_ & _ & _ & Hstored & _).
  split; [exact (Hfresh (or_intror eq_refl)) |].
  exact (Hstored (State.mk (Some 1) (Some 0) (Some 3)) 1 eq_refl eq_refl).
Defined.

(** ** A whole auto-mode loop *)

Lemma expected_run_lookup (n : nat) (cursor end_ : Z) (k : nat) :
  (k < n)%nat ->
  expected_run n cursor end_ !! k
  = Some (cursor + Z.of_nat k, cursor + Z.of_nat k + 1, cursor + Z.of_nat k + 1 <? end_).
Proof.
  revert cursor k. induction n as [| n IH]; intros cursor k Hk; [lia |].
  destruct k as [| k]; cbn [expected_run].
  - cbn. rewrite Z.add_0_r. reflexivity.
  - cbn [lookup list_lookup]. rewrite IH by lia.
    replace (cursor + 1 + Z.of_nat k) with (cursor + Z.of_nat (S k)) by lia.
    reflexivity.
Qed.

Lemma auto_queue_run (loop_id : string) (s m : Z) (c g u : bool) :
  forall (n : nat) (w : World) (cur : Z),
    resume_cursor loop_id s w = cur ->
    cur + Z.of_nat n <= s + m ->
    let q := auto_queue n loop_id s m c g u w in
    q.1 = expected_run n cur (s + m)
    /\ (forall other : string,
           other <> loop_id -> _loop_state q.2 !! other = _loop_state w !! other)
    /\ (n <> O ->
        _loop_state q.2 !! loop_id
        = if cur + Z.of_nat n <? s + m
          then Some {| State.current_index := Some (cur + Z.of_nat n);
                       State.start_index := Some s;
                       State.max_iterations := Some m |}
          else None).
Proof.
  induction n as [| n IH]; intros w cur Hcur Hle q; subst q.
  - cbn. split; [reflexivity |]. split; [reflexivity | congruence].
  - cbn [auto_queue]. run.
    destruct (auto_evaluation_run loop_id s m false c g u w) as (Hc & He & Hd).
    cbv zeta in Hc, He, Hd.
    set (r := auto_evaluation loop_id s m false c g u w) in *.
    assert (Hres : match _loop_state w !! loop_id with
                   | Some st => dict_get (State.current_index st) s
                   | None => s
                   end = cur) by exact Hcur.
    assert (Hsame : match _loop_state w !! loop_id, false with
                    | Some st, false => dict_get (State.current_index st) s
                    | _, _ => s
                    end = cur).
    { rewrite <- Hres. destruct (_loop_state w !! loop_id); reflexivity. }
    rewrite Hsame in Hc, He, Hd. rewrite Hc, He.
    cbn [AutoLoopEnd.next_index AutoLoopEnd.should_continue fst snd expected_run].
    destruct n as [| n'].
    + cbn [auto_queue ret fst snd expected_run]. split; [reflexivity |]. split.
      * intros other Hne. rewrite Hd. destruct (_ <? _).
        -- apply lookup_insert_ne. congruence.
        -- apply lookup_delete_ne. congruence.
      * intros _. rewrite Hd. change (Z.of_nat 1) with 1. destruct (_ <? _).
        -- apply lookup_insert_eq.
        -- apply lookup_delete_eq.
    + assert (Hlt : (cur + 1 <? s + m) = true) by (apply Z.ltb_lt; lia).
      rewrite Hlt in Hd.
      assert (Hnext : resume_cursor loop_id s r.2 = cur + 1).
      { unfold resume_cursor. rewrite Hd, lookup_insert_eq. reflexivity. }
      destruct (IH r.2 (cur + 1) Hnext ltac:(lia)) as (Hq & Hoth & Hslot).
      cbv zeta in Hq, Hoth, Hslot. rewrite Hq, Hlt. split; [reflexivity |]. split.
      * intros other Hne. rewrite (Hoth other Hne), Hd.
        apply lookup_insert_ne. congruence.
      * intros _. rewrite (Hslot ltac:(discriminate)).
        replace (cur + 1 + Z.of_nat (S n')) with (cur + Z.of_nat (S (S n'))) by lia.
        reflexivity.
Qed.

(** X9. An auto-mode loop runs to completion and then starts over.  On a
    loop id without a slot and with [max_iterations >= 1], the host's
    re-queued evaluations see the cursors [start_index],
    [start_index + 1], ...; evaluation number [k] (from 0) reports
    [should_continue] exactly when [k + 1 < max_iterations]; after [j]
    evaluations, [1 <= j < max_iterations], the slot holds the cursor
    [start_index + j]; after [max_iterations] evaluations the slot is gone,
    no other slot has changed, and one more evaluation begins again at
    [start_index]. *)
Theorem auto_loop_runs_to_completion
    (w : World) (loop_id : string) (s m : Z) (c g u : bool) :
  1 <= m ->
  _loop_state w !! loop_id = None ->
  let total := Z.to_nat m in
  let q := auto_queue total loop_id s m c g u w in
  (forall k : nat,
      (k < total)%nat ->
      q.1 !! k = Some (s + Z.of_nat k, s + Z.of_nat k + 1, Z.of_nat k + 1 <? m))
  /\ length q.1 = total
  /\ (forall j : nat,
         (1 <= j < total)%nat ->
         _loop_state (auto_queue j loop_id s m c g u w).2 !! loop_id
         = Some {| State.current_index := Some (s + Z.of_nat j);
                   State.start_index := Some s;
                   State.max_iterations := Some m |})
  /\ _loop_state q.2 !! loop_id = None
  /\ (forall other : string,
         other <> loop_id -> _loop_state q.2 !! other = _loop_state w !! other)
  /\ AutoLoopStart.current_index (AutoLoopStart.execute loop_id s m false q.2).1 = s.
Proof.
  intros Hm Hfresh total q.
  assert (Hcur : resume_cursor loop_id s w = s)
    by (unfold resume_cursor; rewrite Hfresh; reflexivity).
  destruct (auto_queue_run loop_id s m c g u total w s Hcur ltac:(lia))
    as (Hq & Hoth & Hslot).
  cbv zeta in Hq, Hoth, Hslot. fold q in Hq, Hoth, Hslot.
  assert (Hgone : _loop_state q.2 !! loop_id = None).
  { rewrite Hslot by lia.
    destruct (Z.ltb_spec (s + Z.of_nat total) (s + m)) as [Hlt | _]; [lia | reflexivity]. }
  split; [| split; [| split; [| split; [| split]]]].
  - intros k Hk. rewrite Hq, expected_run_lookup by exact Hk.
    do 2 f_equal. destruct (Z.ltb_spec (s + Z.of_nat k + 1) (s + m)),
      (Z.ltb_spec (Z.of_nat k + 1) m); reflexivity || lia.
  - rewrite Hq. clear. generalize s at 1. induction total as [| n IH]; intros z;
      [reflexivity | cbn; rewrite IH; reflexivity].
  - intros j Hj.
    destruct (auto_queue_run loop_id s m c g u j w s Hcur ltac:(lia)) as (_ & _ & Hj').
    cbv zeta in Hj'. rewrite Hj' by lia.
    destruct (Z.ltb_spec (s + Z.of_nat j) (s + m)) as [_ | Hge]; [reflexivity | lia].
  - exact Hgone.
  - exact Hoth.
  - rewrite (proj1 (AutoLoopStart_run loop_id s m false q.2)), Hgone. reflexivity.
Qed.

Lemma auto_loop_runs_to_completion_witness :
  _loop_state (auto_queue 3 "default" 0 3 true true false advanced_world).2
    !! "default"%string = None
  /\ _loop_state (auto_queue 2 "default" 0 3 true true false advanced_world).2
       !! "default"%string = Some (State.mk (Some 2) (Some 0) (Some 3)).
Proof.
  destruct (auto_loop_runs_to_completion advanced_world "default" 0 3 true true false
              (ltac:(lia)) eq_refl) as (_ & _ & Hmid & Hgone & _).
  split.
  - exact Hgone.
  - exact (Hmid 2%nat ltac:(cbn; lia)).
Defined.

(** ** The two End nodes *)

(** X10. [LoopEnd] and [AutoLoopEnd] step the same signal the same way:
    the cursor [AutoLoopEnd] reports is the one in [LoopEnd]'s new signal,
    their continue flags are equal, both hand the passthrough on and both
    send the same requests to the host.  [LoopEnd] never touches the loop
    store. *)
Theorem end_nodes_agree {A : Type}
    (sig : Signal.t) (pt : option A) (c g u : bool) (w : World) :
  let e := LoopEnd.execute sig pt c g u w in
  let a := AutoLoopEnd.execute sig pt c g u w in
  AutoLoopEnd.should_continue a.1 = LoopEnd.continue_loop e.1
  /\ Signal.current_index (LoopEnd.loop_signal e.1) = Some (AutoLoopEnd.next_index a.1)
  /\ AutoLoopEnd.passthrough a.1 = pt
  /\ LoopEnd.passthrough e.1 = pt
  /\ host_calls a.2 = host_calls e.2
  /\ host_calls e.2 = (host_calls w ++ cleanup_requests c g u (cuda_is_available w))%list
  /\ _loop_state e.2 = _loop_state w.
Proof.
  cbv zeta. rewrite LoopEnd_run, (proj1 (AutoLoopEnd_run sig pt c g u w)).
  rewrite (proj2 (AutoLoopEnd_world sig pt c g u w)), cleanup_memory_run.
  repeat split.
Qed.

(** ** Signals *)

(** X11. Every signal a node builds has its three counters and an
    [is_active] that says whether the cursor is below the end; on such a
    signal [LoopCondition] answers [should_continue] with that very flag and
    no default is ever used when it is read. *)
Theorem produced_signals_well_formed :
  (forall (s m : Z) (prior : option Signal.t),
      well_formed (LoopStart.loop_signal (LoopStart.execute s m prior)) = true)
  /\ (forall (sig : Signal.t) (c g u : bool) (w : World),
        well_formed (LoopEnd.loop_signal (LoopEnd.execute sig (@None unit) c g u w).1)
        = true)
  /\ (forall (loop_id : string) (s m : Z) (reset : bool) (w : World),
        well_formed
          (AutoLoopStart.loop_signal (AutoLoopStart.execute loop_id s m reset w).1)
        = true)
  /\ (forall sig : Signal.t,
        well_formed sig = true ->
        Signal.is_active sig
        = Some (LoopCondition.should_continue (LoopCondition.execute sig))
        /\ with_defaults sig = sig).
Proof.
  split; [| split; [| split]].
  - intros s m prior. cbn. apply eqb_reflx.
  - intros sig c g u w. rewrite LoopEnd_run. cbn. apply eqb_reflx.
  - intros loop_id s m reset w.
    rewrite (proj1 (proj2 (AutoLoopStart_run loop_id s m reset w))). cbn.
    apply eqb_reflx.
  - intros [[cur |] [s |] [m |] [a |] lid]; cbn; try discriminate.
    intros H. apply eqb_prop in H. subst a. split; reflexivity.
Qed.

Lemma produced_signals_well_formed_witness :
  Signal.is_active (manual_signal 3 0 3)
  = Some (LoopCondition.should_continue (LoopCondition.execute (manual_signal 3 0 3))).
Proof.
  destruct produced_signals_well_formed as (_ & _ & _ & Hread).
  exact (proj1 (Hread (manual_signal 3 0 3) eq_refl)).
Defined.

(** X12. Feeding [LoopEnd]'s signal back into [LoopStart] resumes the loop
    one step on.  The bounds of the new signal are [LoopStart]'s own inputs,
    whatever the prior signal carried; when they are the bounds of the prior
    signal [LoopStart] returns [LoopEnd]'s signal unchanged, and its
    [is_active] is [LoopEnd]'s continue flag. *)
Theorem loop_start_resumes_loop_end {A : Type}
    (sig : Signal.t) (pt : option A) (c g u : bool) (w : World) (s m : Z) :
  let e := (LoopEnd.execute sig pt c g u w).1 in
  let r := LoopStart.execute s m (Some (LoopEnd.loop_signal e)) in
  LoopStart.current_index r = dict_get (Signal.current_index sig) 0 + 1
  /\ Signal.start_index (LoopStart.loop_signal r) = Some s
  /\ Signal.max_iterations (LoopStart.loop_signal r) = Some m
  /\ (s = dict_get (Signal.start_index sig) 0 ->
      m = dict_get (Signal.max_iterations sig) 1 ->
      LoopStart.loop_signal r = LoopEnd.loop_signal e
      /\ Signal.is_active (LoopStart.loop_signal r) = Some (LoopEnd.continue_loop e)).
Proof.
  cbv zeta. rewrite LoopEnd_run. cbn. repeat split; subst; reflexivity.
Qed.

Lemma loop_start_resumes_loop_end_witness :
  LoopStart.loop_signal
    (LoopStart.execute 0 3
       (Some (LoopEnd.loop_signal
                (LoopEnd.execute (manual_signal 0 0 3) (@None unit) true true false
                   fresh_world).1)))
  = manual_signal 1 0 3.
Proof.
  destruct (@loop_start_resumes_loop_end unit (manual_signal 0 0 3) None true true false
              fresh_world 0 3) as (_ & _ & _ & Hsame).
  exact (proj1 (Hsame eq_refl eq_refl)).
Defined.

(** ** Loop Index *)

(** X13. [LoopIndex] accounts for every iteration: it reports the cursor
    and the iteration count it read, [iteration] is the distance from
    [start_index], and [remaining] is never negative.  While the cursor is
    inside the loop, [iteration] lies in [0 .. max_iterations) and
    [iteration + remaining + 1 = total_iterations]; from the last iteration
    on, [remaining] is 0. *)
Theorem loop_index_accounting (sig : Signal.t) :
  let r := LoopIndex.execute sig in
  let cur := dict_get (Signal.current_index sig) 0 in
  let s := dict_get (Signal.start_index sig) 0 in
  let m := dict_get (Signal.max_iterations sig) 1 in
  LoopIndex.current_index r = cur
  /\ LoopIndex.total_iterations r = m
  /\ LoopIndex.iteration r = cur - s
  /\ 0 <= LoopIndex.remaining r
  /\ (s <= cur < s + m ->
      0 <= LoopIndex.iteration r < m
      /\ LoopIndex.iteration r + LoopIndex.remaining r + 1 = LoopIndex.total_iterations r)
  /\ (s + m - 1 <= cur -> LoopIndex.remaining r = 0).
Proof.
  cbv zeta. cbn [LoopIndex.execute LoopIndex.current_index LoopIndex.total_iterations
    LoopIndex.iteration LoopIndex.remaining fst snd].
  repeat split; lia.
Qed.

Lemma loop_index_accounting_witness :
  LoopIndex.iteration (LoopIndex.execute (manual_signal 6 5 3))
  + LoopIndex.remaining (LoopIndex.execute (manual_signal 6 5 3)) + 1
  = LoopIndex.total_iterations (LoopIndex.execute (manual_signal 6 5 3))
  /\ LoopIndex.remaining (LoopIndex.execute (manual_signal 9 5 3)) = 0.
Proof.
  destruct (loop_index_accounting (manual_signal 6 5 3)) as (_ & _ & _ & _ & Hin & _).
  destruct (loop_index_accounting (manual_signal 9 5 3)) as (_ & _ & _ & _ & _ & Hout).
  split.
  - exact (proj2 (Hin ltac:(cbn; lia))).
  - exact (Hout ltac:(cbn; lia)).
Defined.

Lemma int_quotient_le (a b c d : Z) :
  0 < b -> 0 < d -> a * d <= c * b ->
  (inject_Z a / inject_Z b <= inject_Z c / inject_Z d)%Q.
Proof.
  intros Hb Hd H.
  assert (HB : (0 < inject_Z b)%Q)
    by (change 0%Q with (inject_Z 0); rewrite <- Zlt_Qlt; exact Hb).
  assert (HD : (0 < inject_Z d)%Q)
    by (change 0%Q with (inject_Z 0); rewrite <- Zlt_Qlt; exact Hd).
  apply Qle_shift_div_l; [exact HD |].
  setoid_replace (inject_Z a / inject_Z b * inject_Z d)%Q
    with (inject_Z a * inject_Z d / inject_Z b)%Q using relation Qeq by (field; lra).
  apply Qle_shift_div_r; [exact HB |].
  rewrite <- !inject_Z_mult, <- Zle_Qle. exact H.
Qed.

(** X14. Progress stays in range.  For an iteration count the schema
    admits ([1 .. 10000]) and a cursor inside the loop, the progress of
    [LoopIndex] is a double in [(0, 1]], at least the double of [1/10000].
    For an iteration count of 0 or less no division takes place and the
    progress is 1.0. *)
Theorem progress_in_range (sig : Signal.t) :
  let cur := dict_get (Signal.current_index sig) 0 in
  let s := dict_get (Signal.start_index sig) 0 in
  let m := dict_get (Signal.max_iterations sig) 1 in
  let p := LoopIndex.progress (LoopIndex.execute sig) in
  (admits INPUT_TYPES.LoopStart_max_iterations m ->
   s <= cur < s + m ->
   (0 < p)%Q /\ (int_truediv 1 10000 <= p)%Q /\ (p <= Float64.one)%Q)
  /\ (m <= 0 -> p = Float64.one).
Proof.
  cbv zeta. cbn [LoopIndex.execute LoopIndex.progress snd].
  set (cur := dict_get (Signal.current_index sig) 0).
  set (s := dict_get (Signal.start_index sig) 0).
  set (m := dict_get (Signal.max_iterations sig) 1).
  split.
  - intros [Hlo Hhi] Hin. cbn in Hlo, Hhi.
    destruct (Z.gtb_spec m 0) as [_ | Hneg]; [| lia].
    assert (Hlow : (int_truediv 1 10000 <= int_truediv (cur - s + 1) m)%Q).
    { unfold int_truediv. apply Float64Facts.round_mono.
      apply int_quotient_le; lia. }
    split; [| split].
    + eapply Qlt_le_trans; [| exact Hlow]. rewrite int_truediv_1_10000. reflexivity.
    + exact Hlow.
    + rewrite <- (int_truediv_diag m) by lia. apply int_truediv_mono; lia.
  - intros Hm. destruct (Z.gtb_spec m 0) as [Hpos | _]; [lia | reflexivity].
Qed.

Lemma progress_in_range_witness :
  (0 < LoopIndex.progress (LoopIndex.execute (manual_signal 6 5 3)))%Q
  /\ LoopIndex.progress (LoopIndex.execute (manual_signal 6 5 0)) = Float64.one.
Proof.
  destruct (progress_in_range (manual_signal 6 5 3)) as (Hin & _).
  destruct (progress_in_range (manual_signal 6 5 0)) as (_ & Hzero).
  split.
  - exact (proj1 (Hin ltac:(unfold admits; cbn; lia) ltac:(cbn; lia))).
  - exact (Hzero ltac:(cbn; lia)).
Defined.

(** ** Auto Loop Start *)

(** X15. [AutoLoopStart] reports about its own signal what the manual
    nodes would: its cursor, iteration, remaining and progress are those of
    [LoopIndex] on the signal it returns, its remaining is that of
    [LoopCondition], the signal's [is_active] is [LoopCondition]'s
    [should_continue], and [is_last] is true exactly when [AutoLoopEnd] on
    that signal will end the loop. *)
Theorem auto_start_outputs_agree
    (w w' : World) (loop_id : string) (s m : Z) (reset c g u : bool) :
  let r := (AutoLoopStart.execute loop_id s m reset w).1 in
  let sig := AutoLoopStart.loop_signal r in
  let i := LoopIndex.execute sig in
  AutoLoopStart.current_index r = LoopIndex.current_index i
  /\ AutoLoopStart.iteration r = LoopIndex.iteration i
  /\ AutoLoopStart.remaining r = LoopIndex.remaining i
  /\ AutoLoopStart.remaining r = LoopCondition.remaining (LoopCondition.execute sig)
  /\ AutoLoopStart.progress r = LoopIndex.progress i
  /\ LoopIndex.total_iterations i = m
  /\ Signal.is_active sig
     = Some (LoopCondition.should_continue (LoopCondition.execute sig))
  /\ AutoLoopStart.is_last r
     = negb (AutoLoopEnd.should_continue
               (AutoLoopEnd.execute sig (@None unit) c g u w').1).
Proof.
  cbv zeta. rewrite (proj1 (AutoLoopEnd_run _ (@None unit) c g u w')).
  pose proof (AutoLoopStart_outputs loop_id s m reset w) as Hout. cbv zeta in Hout.
  destruct (AutoLoopStart.execute loop_id s m reset w).1
    as [[[[[cur it] rem] prog] last] sg].
  cbn [AutoLoopStart.current_index fst] in Hout.
  injection Hout as -> -> -> -> ->.
  cbn. unfold end_index. cbn.
  repeat split; try (f_equal; lia).
Qed.

(** X16. [AutoLoopStart] takes from the store the cursor and nothing else:
    the bounds in the persisted record are never read, so two records with
    the same [current_index] give the same outputs, and the signal always
    carries the node's own [start_index] and [max_iterations]. *)
Theorem auto_start_reads_cursor_only
    (w : World) (loop_id : string) (s m : Z) (reset : bool) (record record' : State.t) :
  State.current_index record' = State.current_index record ->
  let stored (st : State.t) := with_loop_state (fun d => <[loop_id := st]> d) w in
  (AutoLoopStart.execute loop_id s m reset (stored record')).1
  = (AutoLoopStart.execute loop_id s m reset (stored record)).1
  /\ Signal.start_index
       (AutoLoopStart.loop_signal
          (AutoLoopStart.execute loop_id s m reset (stored record)).1) = Some s
  /\ Signal.max_iterations
       (AutoLoopStart.loop_signal
          (AutoLoopStart.execute loop_id s m reset (stored record)).1) = Some m.
Proof.
  intros Hcur stored.
  assert (Hidx : forall st : State.t,
             AutoLoopStart.current_index
               (AutoLoopStart.execute loop_id s m reset (stored st)).1
             = if reset then s else dict_get (State.current_index st) s).
  { intros st. rewrite (proj1 (AutoLoopStart_run loop_id s m reset (stored st))).
    unfold stored. cbn [with_loop_state _loop_state]. rewrite lookup_insert_eq.
    destruct reset; reflexivity. }
  split.
  - rewrite (AutoLoopStart_outputs loop_id s m reset (stored record')).
    rewrite (AutoLoopStart_outputs loop_id s m reset (stored record)).
    rewrite !Hidx, Hcur. reflexivity.
  - rewrite (proj1 (proj2 (AutoLoopStart_run loop_id s m reset (stored record)))).
    split; reflexivity.
Qed.

Lemma auto_start_reads_cursor_only_witness :
  (AutoLoopStart.execute "loop_1" 0 3 false
     (with_loop_state
        (fun d => <["loop_1"%string := State.mk (Some 2) (Some 7) (Some 100)]> d)
        fresh_world)).1
  = (AutoLoopStart.execute "loop_1" 0 3 false
       (with_loop_state
          (fun d => <["loop_1"%string := State.mk (Some 2) (Some 0) (Some 3)]> d)
          fresh_world)).1.
Proof.
  exact (proj1 (auto_start_reads_cursor_only fresh_world "loop_1" 0 3 false
                  (State.mk (Some 2) (Some 0) (Some 3))
                  (State.mk (Some 2) (Some 7) (Some 100)) eq_refl)).
Defined.

(** ** Integer Iterator *)

(** X17. With a positive step the iterator walks upwards: the value grows
    strictly with the iteration; [has_more] at an iteration says exactly
    that the value of the next iteration is still at most [end]; once it is
    false it stays false; and it is true exactly for the iterations below
    [(end - start) / step] (floor division).  Every step the schema admits
    is positive.  With a step of 0 or less the other comparison is used:
    [has_more] says that [value + step >= end]. *)
Theorem int_iterator_progression (start end_ step i j : Z) :
  let at_ (k : Z) := IntIterator.execute start end_ step k in
  (0 < step ->
   (IntIterator.has_more (at_ i) = true <-> IntIterator.value (at_ (i + 1)) <= end_)
   /\ (i < j -> IntIterator.value (at_ i) < IntIterator.value (at_ j))
   /\ (i <= j ->
       IntIterator.has_more (at_ i) = false -> IntIterator.has_more (at_ j) = false)
   /\ (IntIterator.has_more (at_ i) = true <-> i < (end_ - start) / step))
  /\ (admits INPUT_TYPES.IntIterator_step step -> 0 < step)
  /\ (step <= 0 ->
      (IntIterator.has_more (at_ i) = true <-> IntIterator.value (at_ i) + step >= end_)).
Proof.
  cbv zeta. cbn [IntIterator.execute IntIterator.has_more IntIterator.value fst snd].
  split; [| split].
  - intros Hstep. destruct (Z.gtb_spec step 0) as [_ | Hneg]; [| lia].
    rewrite Z.leb_le, !Z.leb_gt. split; [| split; [| split]].
    + split; intros H; nia.
    + intros Hij. nia.
    + intros Hij H. nia.
    + split; intros H.
      * apply Z.div_le_lower_bound with (a := end_ - start) (b := step) (q := i + 1) in Hstep;
          [lia | lia].
      * assert (Hq : step * ((end_ - start) / step) <= end_ - start)
          by (apply Z.mul_div_le; lia).
        nia.
  - intros [Hlo _]. cbn in Hlo. lia.
  - intros Hstep. destruct (Z.gtb_spec step 0) as [Hpos | _]; [lia |].
    rewrite Z.geb_le. lia.
Qed.

Lemma int_iterator_progression_witness :
  (IntIterator.has_more (IntIterator.execute 0 10 2 4) = true <-> 4 < (10 - 0) / 2)
  /\ (IntIterator.has_more (IntIterator.execute 0 10 0 4) = true
      <-> IntIterator.value (IntIterator.execute 0 10 0 4) + 0 >= 10).
Proof.
  destruct (int_iterator_progression 0 10 2 4 5) as (Hup & _).
  destruct (int_iterator_progression 0 10 0 4 5) as (_ & _ & Hflat).
  split.
  - exact (proj2 (proj2 (proj2 (Hup ltac:(lia))))).
  - exact (Hflat ltac:(lia)).
Defined.

(** ** Loop Start *)

(** X18. A loop started without a prior signal, on inputs the schema
    admits, begins at [start_index] and is active: [LoopStart] returns its
    inputs, [LoopCondition] says continue with [max_iterations - 1]
    remaining, and [LoopIndex] puts it at iteration 0.  The loop of a single
    iteration is already at its last one: [LoopEnd] answers false at
    once. *)
Theorem loop_start_fresh (start_index max_iterations : Z) (c g u : bool) (w : World) :
  admits INPUT_TYPES.LoopStart_start_index start_index ->
  admits INPUT_TYPES.LoopStart_max_iterations max_iterations ->
  let r := LoopStart.execute start_index max_iterations None in
  let sig := LoopStart.loop_signal r in
  r = (start_index, start_index, max_iterations, sig)
  /\ Signal.is_active sig = Some true
  /\ LoopCondition.execute sig = (true, start_index, max_iterations - 1)
  /\ LoopIndex.iteration (LoopIndex.execute sig) = 0
  /\ LoopIndex.remaining (LoopIndex.execute sig) = max_iterations - 1
  /\ (LoopEnd.continue_loop (LoopEnd.execute sig (@None unit) c g u w).1 = false
      <-> max_iterations = 1).
Proof.
  intros [Hs _] [Hm _] r sig. cbn in Hs, Hm. subst r sig.
  rewrite LoopEnd_run. cbn. unfold end_index. cbn.
  assert (Hact : (start_index <? start_index + max_iterations) = true)
    by (apply Z.ltb_lt; lia).
  rewrite Hact. repeat split; try (f_equal; lia).
  - unfold LoopStart.execute. rewrite Hact. reflexivity.
  - unfold LoopCondition.execute.
    cbn [dict_get Signal.current_index Signal.start_index Signal.max_iterations].
    rewrite Hact. f_equal. lia.
Qed.

Lemma loop_start_fresh_witness :
  LoopCondition.execute (LoopStart.loop_signal (LoopStart.execute 5 3 None)) = (true, 5, 2).
Proof.
  destruct (loop_start_fresh 5 3 true true false fresh_world
              ltac:(unfold admits; cbn; lia) ltac:(unfold admits; cbn; lia))
    as (_ & _ & Hcond & _).
  exact Hcond.
Defined.
